(** * Sync2Jira: intermediary objects and pull-request reconciliation

    A shallow embedding of [sync2jira/intermediary.py] and
    [sync2jira/downstream_pr.py], with the properties of the normaliser,
    the ticket matcher, the object constructors and the reconciliation
    engine stated and proved over it. *)

From Stdlib Require Import String Ascii DecimalString.
From stdpp Require Import base decidable option list gmap.

Local Open Scope N_scope.

(** ** Python strings

    A [str] is a sequence of Unicode code points. Literals of the source are
    ASCII and are written with [lit]. *)

Abbreviation char := N (only parsing).
Abbreviation pystr := (list N) (only parsing).

Definition lit (s : string) : pystr :=
  List.map N_of_ascii (list_ascii_of_string s).

(** [len(s)], an integer. *)
Definition len {A} (s : list A) : Z := Z.of_nat (length s).

(** [s[:n]] for a non-negative [n]. *)
Definition slice_to {A} (n : Z) (s : list A) : list A := take (Z.to_nat n) s.

(** [s.replace(c, '')] for a one-character [c]. *)
Definition remove_char (c : char) (s : pystr) : pystr :=
  filter (λ x, x ≠ c) s.

(** [needle in hay] on strings: [needle] occurs as a contiguous block. *)
Fixpoint starts_with (needle hay : pystr) : bool :=
  match needle, hay with
  | [], _ => true
  | _ :: _, [] => false
  | a :: needle', b :: hay' => bool_decide (a = b) && starts_with needle' hay'
  end.

Fixpoint contains (needle hay : pystr) : bool :=
  starts_with needle hay ||
  match hay with
  | [] => false
  | _ :: hay' => contains needle hay'
  end.

(** ** Content Normalizer

    [content.encode('ascii', errors='replace').decode('ascii')]: a code point
    that ASCII cannot encode becomes one question mark. *)

Definition QUESTION_MARK : char := 63.
Definition BACKSLASH : char := 92.
Definition DASH : char := 45.

Definition encode_ascii_replace (s : pystr) : pystr :=
  List.map (λ c, if c <? 128 then c else QUESTION_MARK) s.

(** The two assignments to [self.content] of [Issue.__init__] and
    [PR.__init__]. *)
Definition scrub_content (content : pystr) : pystr :=
  remove_char BACKSLASH (encode_ascii_replace content).

(** ** Comment Body Trimmer *)

Definition trimCommentBody (commentBody : pystr) : pystr :=
  if bool_decide (len commentBody > 65000)%Z
  then slice_to 65000 commentBody
  else commentBody.

(** ** Comments

    The normalised comment dictionaries built by [from_github]. *)

Record Comment := {
  author : pystr;
  name : pystr;
  body : pystr;
  comment_id : Z;
  date_created : pystr;
  changed : option pystr
}.

(** ** Ticket Reference Matcher *)

Section Matcher.

(** The part of the Unicode character database that [re] consults for a
    [str] pattern: [str.isalnum] and [str.isdecimal]. Only code points from
    128 on are looked up here; the ASCII range is written out. *)
Variable unicode_isalnum : char → bool.
Variable unicode_isdecimal : char → bool.

(** [\d]: a decimal digit. *)
Definition is_digit (c : char) : bool :=
  if c <? 128 then (48 <=? c) && (c <=? 57) else unicode_isdecimal c.

(** [\w]: alphanumeric or the underscore. *)
Definition is_word (c : char) : bool :=
  if c <? 128
  then (48 <=? c) && (c <=? 57) || (65 <=? c) && (c <=? 90)
       || (97 <=? c) && (c <=? 122) || (c =? 95)
  else unicode_isalnum c.

(** The longest prefix of [s] made of characters in class [p], and what
    follows it: a greedy star with nothing after it to backtrack for. *)
Fixpoint span (p : char → bool) (s : pystr) : pystr * pystr :=
  match s with
  | c :: s' => if p c then let '(m, r) := span p s' in (c :: m, r) else ([], s)
  | [] => ([], [])
  end.

(** [-[\d]*] anchored at the head of [s]: the matched text and the rest. *)
Definition match_dash_digits (s : pystr) : option (pystr * pystr) :=
  match s with
  | c :: s' =>
      if bool_decide (c = DASH)
      then let '(d, r) := span is_digit s' in Some (c :: d, r)
      else None
  | [] => None
  end.

(** [[\w]*-[\d]*] anchored at the head of [s]. The star is greedy: it first
    takes one more word character, and gives it back when the remainder of
    the pattern then fails. *)
Fixpoint match_here (s : pystr) : option (pystr * pystr) :=
  match s with
  | c :: s' =>
      if is_word c
      then match match_here s' with
           | Some (m, r) => Some (c :: m, r)
           | None => match_dash_digits s
           end
      else match_dash_digits s
  | [] => None
  end.

(** [re.findall] with the single group spanning the pattern: scan left to
    right, report each match and resume where it ended. [skip] counts the
    characters of the last match that are still ahead. *)
Fixpoint findall_from (skip : nat) (s : pystr) : list pystr :=
  match s with
  | [] => []
  | _ :: s' =>
      match skip with
      | S k => findall_from k s'
      | O =>
          match match_here s with
          | Some (m, _) => m :: findall_from (length m - 1) s'
          | None => findall_from 0 s'
          end
      end
  end.

Definition findall (s : pystr) : list pystr := findall_from 0 s.

(** [re.search] of the same pattern: a match at some position. *)
Fixpoint search (s : pystr) : bool :=
  match match_here s with
  | Some _ => true
  | None => match s with
            | [] => false
            | _ :: s' => search s'
            end
  end.

(** [re.search("\d", s)]. *)
Definition search_digit (s : pystr) : bool := existsb is_digit s.

(** The string built from the comments, newest first. *)
Definition all_data_of (content : option pystr) (comments : list Comment) : pystr :=
  let all_data :=
    foldl (λ acc comment, acc ++ lit " " ++ body comment) (lit " ") (reverse comments) in
  match content with
  | Some ((_ :: _) as c) => all_data ++ c
  | _ => all_data
  end.

(** [matcher]. [None] stands for falling off the end of the function, which
    hands Python's [None] to the caller. [list(set(...))] is the list of
    elements of a finite set, in the set's own order. *)
Definition matcher (content : option pystr) (comments : list Comment)
  : option (list pystr) :=
  let all_data := all_data_of content comments in
  if bool_decide (all_data ≠ []) then
    let tickets := findall all_data in
    let jira_tickets : list pystr :=
      elements (list_to_set (C := gset pystr)
                  (filter (λ i, len i ≠ 1%Z) tickets)) in
    Some (filter (λ m, search m = true ∧ search_digit m = true) jira_tickets)
  else None.

End Matcher.

(** ** Exceptions and results *)

Inductive exn :=
| KeyError (key : pystr)
| AttributeError (attribute : string)
| TypeError
| IndexError
| JIRAError
| TransitionError.

Inductive result (A : Type) :=
| Ok (a : A)
| Raise (e : exn).
Arguments Ok {A} a.
Arguments Raise {A} e.

(** An instance attribute: bound by an assignment, or never assigned, in
    which case reading it raises [AttributeError]. *)
Inductive attr (A : Type) :=
| Bound (a : A)
| Missing.
Arguments Bound {A} a.
Arguments Missing {A}.

Definition getattr {A} (attribute : string) (a : attr A) : result A :=
  match a with
  | Bound v => Ok v
  | Missing => Raise (AttributeError attribute)
  end.

(** Values the code stores and never inspects. *)
#[warnings="-register-all"]
Inductive pyval :=
| PyNone
| PyStr (s : pystr)
| PyInt (z : Z)
| PyList (l : list pyval).

(** [str(n)] for an integer. *)
Definition str_int (n : Z) : pystr :=
  lit (NilZero.string_of_int (Z.to_int n)).

(** ** Routing configuration *)

(** One [config['sync2jira']['map'][source][upstream]] dictionary:
    the [pr_updates] list of one-entry dictionaries when the key is there,
    and the names of the other keys. *)
Record Downstream := {
  pr_updates : option (list (gmap pystr pystr));
  other_keys : gset pystr
}.

(** Truth value of the dictionary: it has an entry. *)
Definition truthy_downstream (d : Downstream) : bool :=
  bool_decide (is_Some (pr_updates d) ∨ other_keys d ≠ ∅).

Record UserEntry := { jira : pystr }.

Record Config := {
  testing : bool;                               (* config['sync2jira']['testing'] *)
  map : gmap pystr (gmap pystr Downstream);     (* config['sync2jira']['map'] *)
  mapping : gmap pystr UserEntry                (* config['mapping'] *)
}.

Definition subscript {V} (m : gmap pystr V) (key : pystr) : result V :=
  match m !! key with
  | Some v => Ok v
  | None => Raise (KeyError key)
  end.

(** [config['sync2jira']['map'][source][upstream]] *)
Definition routing_entry (config : Config) (source upstream : pystr) : result Downstream :=
  match subscript (map config) source with
  | Ok by_project => subscript by_project upstream
  | Raise e => Raise e
  end.

(** [u'[%s] %s' % (self.upstream, self._title)] *)
Definition format_title (upstream _title : pystr) : pystr :=
  lit "[" ++ upstream ++ lit "] " ++ _title.

(** ** Intermediary Issue *)

Module Issue.

(** The attributes that [__init__] binds unconditionally are plain fields.
    [jira_key] is bound by [sync_with_jira]; [match_] and [suffix] are read by
    the reconciliation code and bound nowhere in the class. *)
Record t := mk {
  source : pystr;
  _title : pystr;
  url : pystr;
  upstream : pystr;
  comments : list Comment;
  tags : pyval;
  fixVersion : pyval;
  priority : pyval;
  content : attr pystr;
  reporter : attr pystr;
  assignee : attr pyval;
  status : attr pyval;
  id : attr pystr;
  upstream_id : attr pyval;
  downstream : attr Downstream;
  jira_key : attr (list pystr);
  match_ : attr (list pystr);
  suffix : attr pystr
}.

Definition title (self : t) : pystr := format_title (upstream self) (_title self).
Definition upstream_title (self : t) : pystr := _title self.

Definition __init__ (source title url upstream : pystr) (comments : list Comment)
    (config : Config) (tags fixVersion priority : pyval)
    (content : option pystr) (reporter : pystr) (assignee status : pyval)
    (id : Z) (upstream_id : pyval) (downstream : option Downstream)
  : result t :=
  let self :=
    mk source title url upstream comments tags fixVersion priority
       Missing Missing Missing Missing Missing Missing Missing
       Missing Missing Missing in
  match content with
  | Some content =>
      let bind_rest (d : Downstream) :=
        mk source title url upstream comments tags fixVersion priority
           (Bound (scrub_content content)) (Bound reporter) (Bound assignee)
           (Bound status) (Bound (str_int id)) (Bound upstream_id) (Bound d)
           Missing Missing Missing in
      match downstream with
      | Some d =>
          if truthy_downstream d then Ok (bind_rest d)
          else match routing_entry config source upstream with
               | Ok d' => Ok (bind_rest d')
               | Raise e => Raise e
               end
      | None =>
          match routing_entry config source upstream with
          | Ok d' => Ok (bind_rest d')
          | Raise e => Raise e
          end
      end
  | None => Ok self
  end.

End Issue.

(** ** Intermediary PR *)

Module PR.

Record t := mk {
  source : pystr;
  jira_key : list pystr;
  _title : pystr;
  url : pystr;
  upstream : pystr;
  comments : list Comment;
  priority : pyval;
  content : option pystr;
  reporter : pystr;
  assignee : pyval;
  status : pyval;
  id : pystr;
  suffix : pystr;
  match_ : list pystr;
  downstream : Downstream
}.

Definition title (self : t) : pystr := format_title (upstream self) (_title self).

Definition __init__ (source : pystr) (jira_key : list pystr) (title url upstream : pystr)
    (config : Config) (comments : list Comment) (priority : pyval)
    (content : option pystr) (reporter : pystr) (assignee status : pyval)
    (id : Z) (suffix : pystr) (match_ : list pystr) (downstream : option Downstream)
  : result t :=
  let content' :=
    match content with
    | Some ((_ :: _) as c) => Some (scrub_content c)
    | _ => None
    end in
  let finish (d : Downstream) :=
    mk source jira_key title url upstream comments priority content'
       reporter assignee status (str_int id) suffix match_ d in
  match downstream with
  | Some d =>
      if truthy_downstream d then Ok (finish d)
      else match routing_entry config source upstream with
           | Ok d' => Ok (finish d')
           | Raise e => Raise e
           end
  | None =>
      match routing_entry config source upstream with
      | Ok d' => Ok (finish d')
      | Raise e => Raise e
      end
  end.

End PR.

(** The object handed to the reconciliation functions, and the attribute
    reads they make on it. *)
Inductive item :=
| IsIssue (i : Issue.t)
| IsPR (p : PR.t).

Definition isinstance_Issue (pr : item) : bool :=
  match pr with IsIssue _ => true | IsPR _ => false end.

Definition get_url (pr : item) : pystr :=
  match pr with IsIssue i => Issue.url i | IsPR p => PR.url p end.

Definition get_title (pr : item) : pystr :=
  match pr with IsIssue i => Issue.title i | IsPR p => PR.title p end.

Definition get_comments (pr : item) : list Comment :=
  match pr with IsIssue i => Issue.comments i | IsPR p => PR.comments p end.

Definition get_match (pr : item) : result (list pystr) :=
  match pr with
  | IsIssue i => getattr "match" (Issue.match_ i)
  | IsPR p => Ok (PR.match_ p)
  end.

Definition get_jira_key (pr : item) : result (list pystr) :=
  match pr with
  | IsIssue i => getattr "jira_key" (Issue.jira_key i)
  | IsPR p => Ok (PR.jira_key p)
  end.

Definition get_content (pr : item) : result (option pystr) :=
  match pr with
  | IsIssue i =>
      match Issue.content i with
      | Bound c => Ok (Some c)
      | Missing => Raise (AttributeError "content")
      end
  | IsPR p => Ok (PR.content p)
  end.

Definition get_downstream (pr : item) : result Downstream :=
  match pr with
  | IsIssue i => getattr "downstream" (Issue.downstream i)
  | IsPR p => Ok (PR.downstream p)
  end.

Definition get_suffix (pr : item) : result pystr :=
  match pr with
  | IsIssue i => getattr "suffix" (Issue.suffix i)
  | IsPR p => Ok (PR.suffix p)
  end.

Definition get_reporter (pr : item) : result pystr :=
  match pr with
  | IsIssue i => getattr "reporter" (Issue.reporter i)
  | IsPR p => Ok (PR.reporter p)
  end.

(** [pr.jira_key = keys] *)
Definition set_jira_key (pr : item) (keys : list pystr) : item :=
  match pr with
  | IsIssue i =>
      IsIssue (Issue.mk (Issue.source i) (Issue._title i) (Issue.url i)
                 (Issue.upstream i) (Issue.comments i) (Issue.tags i)
                 (Issue.fixVersion i) (Issue.priority i) (Issue.content i)
                 (Issue.reporter i) (Issue.assignee i) (Issue.status i)
                 (Issue.id i) (Issue.upstream_id i) (Issue.downstream i)
                 (Bound keys) (Issue.match_ i) (Issue.suffix i))
  | IsPR p =>
      IsPR (PR.mk (PR.source p) keys (PR._title p) (PR.url p) (PR.upstream p)
              (PR.comments p) (PR.priority p) (PR.content p) (PR.reporter p)
              (PR.assignee p) (PR.status p) (PR.id p) (PR.suffix p)
              (PR.match_ p) (PR.downstream p))
  end.

(** ** The downstream tracker

    The JIRA server behind the client, as the collaborator contracts describe
    it: tickets carry remote links, comments and a status; a search answers
    with a sequence of tickets or with a tracker error. *)

Record RemoteLink := { link_url : pystr; link_title : pystr }.

Record Ticket := {
  ticket_links : list RemoteLink;
  ticket_comments : list pystr;
  ticket_status : pystr
}.

Definition blank_ticket : Ticket :=
  {| ticket_links := []; ticket_comments := []; ticket_status := [] |}.

Record Tracker := {
  tickets : gmap N Ticket;
  (* the answer to a query; [None] is the tracker's own error *)
  search_answer : pystr → option (list N);
  (* whether a ticket may move from one status to another *)
  workflow : pystr → pystr → bool
}.

Definition ticket_of (j : Tracker) (existing : N) : Ticket :=
  default blank_ticket (tickets j !! existing).

Definition put_ticket (existing : N) (t : Ticket) (j : Tracker) : Tracker :=
  {| tickets := <[existing := t]> (tickets j);
     search_answer := search_answer j;
     workflow := workflow j |}.

Inductive level := Info | Warning | Error.

Inductive logarg :=
| AStr (s : pystr)
| AInt (z : Z)
| AList (l : list pystr).

(** What a run does to the outside: calls on the tracker, and log records
    (the message as written in the source, with the interpolated values). *)
Inductive event :=
| GetJiraClient
| SearchIssues (query : pystr)
| RemoteLinks (existing : N)
| Comments (existing : N)
| AttachLink (existing : N) (link : RemoteLink)
| AddComment (existing : N) (body : pystr)
| ChangeStatus (existing : N) (target : pystr)
| Log (lvl : level) (message : string) (args : list logarg).

Definition is_api_call (e : event) : bool :=
  match e with Log _ _ _ => false | _ => true end.

Definition is_attach_link (e : event) : bool :=
  match e with AttachLink _ _ => true | _ => false end.

Definition is_add_comment (e : event) : bool :=
  match e with AddComment _ _ => true | _ => false end.

(** ** Computations against the tracker

    A computation reads and updates the tracker, records its events, and
    ends with a value or an exception; what it did before an exception
    stays done. *)

Definition M (A : Type) : Type := Tracker → result A * Tracker * list event.

Definition ret {A} (a : A) : M A := λ j, (Ok a, j, []).

Definition raise {A} (e : exn) : M A := λ j, (Raise e, j, []).

Definition bind {A B} (m : M A) (f : A → M B) : M B := λ j,
  match m j with
  | (Ok a, j', evs) => let '(r, j'', evs') := f a j' in (r, j'', evs ++ evs')
  | (Raise e, j', evs) => (Raise e, j', evs)
  end.

Definition lift {A} (r : result A) : M A :=
  match r with Ok a => ret a | Raise e => raise e end.

Definition emit (e : event) : M unit := λ j, (Ok tt, j, [e]).

Definition log (lvl : level) (message : string) (args : list logarg) : M unit :=
  emit (Log lvl message args).

(** [try: m except JIRAError: handler] *)
Definition try_except_JIRAError {A} (m : M A) (handler : M A) : M A := λ j,
  match m j with
  | (Raise JIRAError, j', evs) =>
      let '(r, j'', evs') := handler j' in (r, j'', evs ++ evs')
  | other => other
  end.

Declare Scope tracker_scope.
Delimit Scope tracker_scope with tracker.
Notation "x <- m ;; k" := (bind m (λ x, k))
  (at level 100, m at next level, k at level 200, right associativity) : tracker_scope.
Notation "m ;; k" := (bind m (λ _, k))
  (at level 100, k at level 200, right associativity) : tracker_scope.
Local Open Scope tracker_scope.

Definition when_ (b : bool) (m : M unit) : M unit := if b then m else ret tt.

(** *** The client library

    Modelled from the spec: the methods of the third-party JIRA client that
    the engine calls, after the collaborator contracts [search_tickets],
    [get_remote_links], [get_comments] and [add_comment]. Only the search
    can fail. *)

Module client.

Definition search_issues (query : pystr) : M (list N) := λ j,
  match search_answer j query with
  | Some response => (Ok response, j, [SearchIssues query])
  | None => (Raise JIRAError, j, [SearchIssues query])
  end.

Definition remote_links (existing : N) : M (list RemoteLink) := λ j,
  (Ok (ticket_links (ticket_of j existing)), j, [RemoteLinks existing]).

Definition comments (existing : N) : M (list pystr) := λ j,
  (Ok (ticket_comments (ticket_of j existing)), j, [Comments existing]).

Definition add_comment (existing : N) (body : pystr) : M unit := λ j,
  let t := ticket_of j existing in
  (Ok tt,
   put_ticket existing
     {| ticket_links := ticket_links t;
        ticket_comments := ticket_comments t ++ [body];
        ticket_status := ticket_status t |} j,
   [AddComment existing body]).

End client.

(** *** [sync2jira.downstream_issue] *)

Module d_issue.

(** Modelled from the spec: [get_jira_client] of [downstream_issue.py], which
    obtains the tracker client for an item. *)
Definition get_jira_client (pr : item) (config : Config) : M unit :=
  emit GetJiraClient.

(** Modelled from the spec: [attach_link] of [downstream_issue.py], the
    collaborator [attach_remote_link(ticket, {url, title})]. *)
Definition attach_link (existing : N) (remote_link : RemoteLink) : M unit := λ j,
  let t := ticket_of j existing in
  (Ok tt,
   put_ticket existing
     {| ticket_links := ticket_links t ++ [remote_link];
        ticket_comments := ticket_comments t;
        ticket_status := ticket_status t |} j,
   [AttachLink existing remote_link]).

(** Modelled from the spec: [change_status] of [downstream_issue.py], the
    collaborator [change_status(ticket, target_status_name)], which fails
    with [TransitionError] when the named status cannot be reached from the
    ticket's current status, and then leaves the ticket as it is. *)
Definition change_status (existing : N) (target : pystr) (pr : item) : M unit := λ j,
  let t := ticket_of j existing in
  if workflow j (ticket_status t) target
  then (Ok tt,
        put_ticket existing
          {| ticket_links := ticket_links t;
             ticket_comments := ticket_comments t;
             ticket_status := target |} j,
        [ChangeStatus existing target])
  else (Raise TransitionError, j, [ChangeStatus existing target]).

End d_issue.

(** ** Reconciliation Engine: [sync2jira/downstream_pr.py] *)

(** [get_jira_username_from_github]: the [jira] entry of the user whose name
    is the login, or [None] when the loop ends without a hit. *)
Definition get_jira_username_from_github (config : Config) (github_login : pystr)
  : option pystr :=
  jira <$> mapping config !! github_login.

(** [pr.title.replace(']', '').replace('[', '')] *)
Definition strip_brackets (title : pystr) : pystr :=
  remove_char 91 (remove_char 93 title).

Definition format_comment (pr : item) (pr_suffix : pystr) (config : Config)
  : result pystr :=
  match get_reporter pr with
  | Raise e => Raise e
  | Ok pr_reporter =>
      let reporter :=
        match get_jira_username_from_github config pr_reporter with
        | Some ((_ :: _) as ret) => lit "[~accountid:" ++ ret ++ lit "]"
        | _ => pr_reporter
        end in
      let title := strip_brackets (get_title pr) in
      Ok (if contains (lit "closed") pr_suffix then
            lit "Merge request [" ++ title ++ lit "|" ++ get_url pr ++ lit "] was closed."
          else if contains (lit "reopened") pr_suffix then
            lit "Merge request [" ++ title ++ lit "|" ++ get_url pr ++ lit "] was reopened."
          else if contains (lit "merged") pr_suffix then
            lit "Merge request [" ++ title ++ lit "|" ++ get_url pr ++ lit "] was merged!"
          else
            reporter ++ lit " mentioned this issue in " ++
            lit "merge request [" ++ title ++ lit "| " ++ get_url pr ++ lit "].")
  end.

Definition issue_link_exists (existing : N) (pr : item) : M bool :=
  links <- client.remote_links existing ;;
  ret (existsb (λ issue_link, bool_decide (link_url issue_link = get_url pr)) links).

Definition comment_exists (existing : N) (new_comment : pystr) : M bool :=
  comments <- client.comments existing ;;
  ret (existsb (λ comment, bool_decide (new_comment = comment)) comments).

(** [any(transition_type in item for item in updates)] *)
Definition any_has (transition_type : pystr) (updates : list (gmap pystr pystr)) : bool :=
  existsb (λ item, bool_decide (is_Some (item !! transition_type))) updates.

Definition update_transition (existing : N) (pr : item) (transition_type : pystr)
  : M unit :=
  downstream <- lift (get_downstream pr) ;;
  let link_status :=
    filter (λ transition, is_Some (transition !! transition_type))
           (default [] (pr_updates downstream)) in
  match link_status with
  | first :: _ =>
      closed_status <- lift (subscript first transition_type) ;;
      d_issue.change_status existing closed_status pr ;;
      log Info "Updated {transition_type} for issue {pr.title}"
          [AStr transition_type; AStr (get_title pr)]
  | [] => ret tt
  end.

Definition update_jira_issue (existing : N) (pr : item) (config : Config) : M unit :=
  downstream <- lift (get_downstream pr) ;;
  let updates := default [] (pr_updates downstream) in
  suffix <- lift (get_suffix pr) ;;
  new_comment <- lift (format_comment pr suffix config) ;;
  exists_ <- issue_link_exists existing pr ;;
  comment_exist <- comment_exists existing new_comment ;;
  when_ (negb exists_)
    (d_issue.attach_link existing
       {| link_url := get_url pr; link_title := lit "[PR] " ++ get_title pr |}) ;;
  when_ (negb comment_exist)
    (jira_key <- lift (get_jira_key pr) ;;
     log Info "Added comment for PR {pr.title} on JIRA {pr.jira_key}"
         [AStr (get_title pr); AList jira_key] ;;
     client.add_comment existing new_comment) ;;
  when_ (any_has (lit "merge_transition") updates && contains (lit "merged") suffix)
    (log Info "Looking for new merged_transition" [] ;;
     update_transition existing pr (lit "merge_transition")) ;;
  when_ (any_has (lit "link_transition") updates
         && contains (lit "mentioned") new_comment && negb exists_)
    (log Info "Looking for new link_transition" [] ;;
     update_transition existing pr (lit "link_transition")).

(** The [for jira_key in pr.jira_key] loop of [sync_with_jira]. The [try]
    block ends with no ticket to work on ([continue]) or with the response
    of exactly one ticket. *)
Fixpoint sync_with_jira_loop (pr : item) (config : Config) (keys : list pystr)
  : M unit :=
  match keys with
  | [] => ret tt
  | jira_key :: keys' =>
      let query := lit "Key = " ++ jira_key in
      found <- try_except_JIRAError
        (response <- client.search_issues query ;;
         if bool_decide (len response = 0 ∨ len response > 1)%Z
         then log Warning "{len(response)} JIRA issues found for {pr.title}. Query: {query}"
                  [AInt (len response); AStr (get_title pr); AStr query] ;;
              ret None
         else ret (Some response))
        (log Warning "No JIRA issue exists for PR: {pr.title}. Query: {query}"
             [AStr (get_title pr); AStr query] ;;
         ret None) ;;
      match found with
      | None => sync_with_jira_loop pr config keys'
      | Some response =>
          existing <- lift (match response with
                            | first :: _ => Ok first
                            | [] => Raise IndexError
                            end) ;;
          log Info "Syncing PR {pr.title}" [AStr (get_title pr)] ;;
          update_jira_issue existing pr config ;;
          log Info "Done syncing PR {pr.title}" [AStr (get_title pr)] ;;
          sync_with_jira_loop pr config keys'
      end
  end.

Section Reconciliation.

(** The Unicode tables of the matcher. *)
Variable unicode_isalnum : char → bool.
Variable unicode_isdecimal : char → bool.

(** [sync_with_jira]. The assignment to [pr.jira_key] is kept for the rest
    of the call. *)
Definition sync_with_jira (pr : item) (config : Config) : M unit :=
  log Info "[PR] Considering upstream %s, %s" [AStr (get_url pr); AStr (get_title pr)] ;;
  if testing config then
    log Info "Testing flag is true.  Skipping actual update." []
  else
    match_ <- lift (get_match pr) ;;
    if bool_decide (match_ = []) then
      log Info "[PR] No match found for {pr.title}" [AStr (get_title pr)]
    else
      d_issue.get_jira_client pr config ;;
      pr <- (if isinstance_Issue pr then
               content <- lift (get_content pr) ;;
               match matcher unicode_isalnum unicode_isdecimal content (get_comments pr) with
               | Some keys => ret (set_jira_key pr keys)
               | None => raise TypeError
               end
             else ret pr) ;;
      keys <- lift (get_jira_key pr) ;;
      sync_with_jira_loop pr config keys.

End Reconciliation.

(** ** [str.replace]

    Occurrences of [old] are replaced from left to right, the scan resuming
    after each one. [skip] counts the characters of the last occurrence that
    are still ahead. With an empty [old], Python puts [new] before every
    character and at the end. *)
Fixpoint replace_from (skip : nat) (old new s : pystr) : pystr :=
  match s with
  | [] => []
  | c :: s' =>
      match skip with
      | S k => replace_from k old new s'
      | O =>
          if starts_with old s
          then new ++ replace_from (length old - 1) old new s'
          else c :: replace_from 0 old new s'
      end
  end.

Definition replace (old new s : pystr) : pystr :=
  match old with
  | [] => new ++ concat (List.map (λ c, c :: new) s)
  | _ :: _ => replace_from 0 old new s
  end.

(** ** Construction from GitHub payloads *)

(** A comment of the upstream payload. *)
Record GithubComment := {
  gc_author : pystr;
  gc_name : pystr;
  gc_body : pystr;
  gc_id : Z;
  gc_date_created : pystr
}.

(** The loop of both [from_github] methods that builds [comments]. *)
Definition github_comments (raw : list GithubComment) : list Comment :=
  List.map (λ comment,
       {| author := gc_author comment;
          name := gc_name comment;
          body := trimCommentBody (gc_body comment);
          comment_id := gc_id comment;
          date_created := gc_date_created comment;
          changed := None |}) raw.

(** The issue dictionary handed to [Issue.from_github]; [None] is Python's
    [None]. *)
Record GithubIssue := {
  gi_comments : list GithubComment;
  gi_state : option pystr;
  gi_title : pystr;
  gi_html_url : pystr;
  gi_labels : pyval;
  gi_milestone : option pystr;
  gi_body : option pystr;
  gi_user : pystr;
  gi_assignees : pyval;
  gi_id : Z;
  gi_number : Z
}.

(** [issue['state'] = state] *)
Definition set_state (state : option pystr) (issue : GithubIssue) : GithubIssue :=
  {| gi_comments := gi_comments issue; gi_state := state;
     gi_title := gi_title issue; gi_html_url := gi_html_url issue;
     gi_labels := gi_labels issue; gi_milestone := gi_milestone issue;
     gi_body := gi_body issue; gi_user := gi_user issue;
     gi_assignees := gi_assignees issue; gi_id := gi_id issue;
     gi_number := gi_number issue |}.

(** [issue['milestone'] = milestone] *)
Definition set_milestone (milestone : option pystr) (issue : GithubIssue)
  : GithubIssue :=
  {| gi_comments := gi_comments issue; gi_state := gi_state issue;
     gi_title := gi_title issue; gi_html_url := gi_html_url issue;
     gi_labels := gi_labels issue; gi_milestone := milestone;
     gi_body := gi_body issue; gi_user := gi_user issue;
     gi_assignees := gi_assignees issue; gi_id := gi_id issue;
     gi_number := gi_number issue |}.

(** The block of [Issue.from_github] that rewrites [issue['state']]. *)
Definition reformat_state (issue : GithubIssue) : GithubIssue :=
  match gi_state issue with
  | Some ((_ :: _) as state) =>
      if bool_decide (state = lit "open") then set_state (Some (lit "Open")) issue
      else if bool_decide (state = lit "closed") then set_state (Some (lit "Closed")) issue
      else issue
  | _ => issue
  end.

(** [map_fixVersion]: the dictionary is updated in place, so the updated
    dictionary is what the function leaves behind. *)
Definition map_fixVersion (mapping : list (gmap pystr pystr)) (issue : GithubIssue)
  : result GithubIssue :=
  match filter (λ d, is_Some (d !! lit "fixVersion")) mapping with
  | [] => Raise IndexError
  | first :: _ =>
      match subscript first (lit "fixVersion") with
      | Raise e => Raise e
      | Ok fixVersion_map =>
          match gi_milestone issue with
          | Some ((_ :: _) as milestone) =>
              Ok (set_milestone (Some (replace (lit "XXX") milestone fixVersion_map))
                                issue)
          | _ => Ok issue
          end
      end
  end.

(** The pull-request dictionary handed to [PR.from_github]; [gp_body] is
    [pr.get("body")]. *)
Record GithubPR := {
  gp_comments : list GithubComment;
  gp_html_url : pystr;
  gp_body : option pystr;
  gp_title : pystr;
  gp_user_fullname : pystr;
  gp_assignees : pyval;
  gp_number : Z
}.

Section FromGithub.

(** The Unicode tables of the matcher. *)
Variable unicode_isalnum : char → bool.
Variable unicode_isdecimal : char → bool.

(** The list stored under [mapping] in a routing dictionary, of which
    [Downstream] keeps the name only. *)
Variable mapping_of : Downstream → option (list (gmap pystr pystr)).

(** [Issue.from_github]. The payload is updated in place before the Issue is
    built, so the call leaves the updated payload behind, also when it
    raises. *)
Definition Issue_from_github (upstream : pystr) (issue : GithubIssue)
    (config : Config) : result Issue.t * GithubIssue :=
  let upstream_source := lit "github" in
  let comments := github_comments (gi_comments issue) in
  let issue := reformat_state issue in
  match routing_entry config upstream_source upstream with
  | Raise e => (Raise e, issue)
  | Ok entry =>
      let mapping := default [] (mapping_of entry) in
      let mapped :=
        if any_has (lit "fixVersion") mapping
        then map_fixVersion mapping issue
        else Ok issue in
      match mapped with
      | Raise e => (Raise e, issue)
      | Ok issue =>
          (Issue.__init__ upstream_source (gi_title issue) (gi_html_url issue)
             upstream comments config (gi_labels issue)
             (PyList [match gi_milestone issue with
                      | Some milestone => PyStr milestone
                      | None => PyNone
                      end])
             PyNone (gi_body issue)
             (gi_user issue) (gi_assignees issue)
             (match gi_state issue with Some state => PyStr state | None => PyNone end)
             (gi_id issue) (PyInt (gi_number issue)) None,
           issue)
      end
  end.

(** [PR.from_github]. The matcher always hands back a list, so the branch
    for [None], which a PR of this model cannot hold, is never taken. *)
Definition PR_from_github (upstream : pystr) (pr : GithubPR) (suffix : pystr)
    (config : Config) : result PR.t :=
  let upstream_source := lit "github" in
  let comments := github_comments (gp_comments pr) in
  let url := gp_html_url pr in
  match matcher unicode_isalnum unicode_isdecimal (gp_body pr) comments with
  | None => Raise TypeError
  | Some match_ =>
      PR.__init__ upstream_source match_ (gp_title pr) url upstream config
        comments PyNone (gp_body pr) (gp_user_fullname pr) (gp_assignees pr)
        PyNone (gp_number pr) suffix match_ None
  end.

End FromGithub.

(** [Issue.__repr__] *)
Definition Issue_repr (self : Issue.t) : pystr :=
  lit "<Issue " ++ Issue.url self ++ lit " >".

(** ** Reading a run *)

Definition outcome {A} (run : result A * Tracker * list event) : result A := run.1.1.
Definition final {A} (run : result A * Tracker * list event) : Tracker := run.1.2.
Definition events {A} (run : result A * Tracker * list event) : list event := run.2.

(** Some existing remote link of the ticket has this URL. *)
Definition link_present (j : Tracker) (existing : N) (url : pystr) : bool :=
  existsb (λ l, bool_decide (link_url l = url)) (ticket_links (ticket_of j existing)).

(** Some existing comment of the ticket has exactly this body. *)
Definition comment_present (j : Tracker) (existing : N) (body : pystr) : bool :=
  existsb (λ b, bool_decide (body = b)) (ticket_comments (ticket_of j existing)).

Definition pure_ascii (s : pystr) : Prop := Forall (λ c, c < 128) s.

Definition is_search_issues (e : event) : bool :=
  match e with SearchIssues _ => true | _ => false end.

(** The second tracker differs from the first in ticket statuses at most. *)
Definition status_only (j j' : Tracker) : Prop :=
  search_answer j' = search_answer j
  ∧ workflow j' = workflow j
  ∧ ∀ t, ticket_links (ticket_of j' t) = ticket_links (ticket_of j t)
         ∧ ticket_comments (ticket_of j' t) = ticket_comments (ticket_of j t).

(** Events of [update_transition]: the status request and its log record. *)
Definition transition_event (e : event) : Prop :=
  match e with
  | ChangeStatus _ _ => True
  | Log _ message _ =>
      message = "Updated {transition_type} for issue {pr.title}"%string
  | _ => False
  end.

(** A run on a PR ends normally or in the tracker's refusal of a status. *)
Definition normal_or_refused (r : result unit) : Prop :=
  r = Ok tt ∨ r = Raise TransitionError.

(** The query sent for a candidate key. *)
Definition key_query (jira_key : pystr) : pystr := lit "Key = " ++ jira_key.

(** The log record that opens the link-transition block. *)
Definition link_transition_started : event :=
  Log Info "Looking for new link_transition" [].

(** The remote link that [update_jira_issue] attaches for a PR. *)
Definition pr_link (p : PR.t) : RemoteLink :=
  {| link_url := PR.url p; link_title := lit "[PR] " ++ PR.title p |}.

(** ** Sample data *)

Definition sample_downstream : Downstream :=
  {| pr_updates := Some [ {[ lit "merge_transition" := lit "Done" ]};
                          {[ lit "link_transition" := lit "In Review" ]} ];
     other_keys := {[ lit "project" ]} |}.

Definition sample_config : Config :=
  {| testing := false;
     map := {[ lit "github" := {[ lit "org/repo" := sample_downstream ]} ]};
     mapping := {[ lit "octocat" := {| jira := lit "5b10ac8d82e05b22cc7d4ef5" |} ]} |}.

(** A configuration that routes no project. *)
Definition unrouted_config : Config :=
  {| testing := false; map := ∅; mapping := ∅ |}.

Definition sample_pr (title suffix : pystr) (match_ : list pystr) : PR.t :=
  PR.mk (lit "github") match_ title (lit "https://github.com/org/repo/pull/5")
        (lit "org/repo") [] PyNone (Some (lit "Relates to FACTORY-1"))
        (lit "octocat") PyNone PyNone (lit "5") suffix match_ sample_downstream.

(** One open ticket, number 1, found under [FACTORY-1]. *)
Definition sample_tracker : Tracker :=
  {| tickets := {[ 1 := {| ticket_links := []; ticket_comments := [];
                           ticket_status := lit "Open" |} ]};
     search_answer := λ query,
       if bool_decide (query = lit "Key = FACTORY-1") then Some [1] else Some [];
     workflow := λ _ _, true |}.

Definition ascii_only : char → bool := λ _, false.

(** ** Notions for the further properties *)

(** A string of word characters, and a string of digits. *)
Definition word_chars (unicode_isalnum : char → bool) (w : pystr) : Prop :=
  Forall (λ c, is_word unicode_isalnum c = true) w.

Definition digit_chars (unicode_isdecimal : char → bool) (d : pystr) : Prop :=
  Forall (λ c, is_digit unicode_isdecimal c = true) d.

(** The second tracker answers searches and allows transitions as the first,
    and every ticket has the links and comments it had, in the same order,
    possibly followed by new ones. *)
Definition grows (j j' : Tracker) : Prop :=
  search_answer j' = search_answer j
  ∧ workflow j' = workflow j
  ∧ ∀ t, ticket_links (ticket_of j t) `prefix_of` ticket_links (ticket_of j' t)
         ∧ ticket_comments (ticket_of j t) `prefix_of` ticket_comments (ticket_of j' t).

(** Every ticket other than [existing] is as it was. *)
Definition touches_only (existing : N) (j j' : Tracker) : Prop :=
  ∀ t, t ≠ existing → ticket_of j' t = ticket_of j t.

(** Whatever tracker a computation starts from, the tracker it leaves is
    related to it. *)
Definition preserves {A} (R : Tracker → Tracker → Prop) (m : M A) : Prop :=
  ∀ j, R j (final (m j)).

(** The three operations that write to a ticket keep the relation. *)
Definition writes_preserve (R : Tracker → Tracker → Prop) (existing : N) : Prop :=
  (∀ link, preserves R (d_issue.attach_link existing link))
  ∧ (∀ body, preserves R (client.add_comment existing body))
  ∧ (∀ target pr, preserves R (d_issue.change_status existing target pr)).

(** The ticket carries a link to the PR's URL and a comment with this body. *)
Definition settled (p : PR.t) (comment : pystr) (j : Tracker) (t : N) : Prop :=
  link_present j t (PR.url p) = true ∧ comment_present j t comment = true.

(** The log record that opens the merge-transition block. *)
Definition merge_transition_started : event :=
  Log Info "Looking for new merged_transition" [].

Definition is_change_status (e : event) : bool :=
  match e with ChangeStatus _ _ => true | _ => false end.

(** *** More sample data *)

Definition sample_github_pr (body : option pystr) : GithubPR :=
  {| gp_comments :=
       [ {| gc_author := lit "octocat"; gc_name := lit "Octo Cat";
            gc_body := lit "looks good"; gc_id := 11;
            gc_date_created := lit "2021-03-01" |} ];
     gp_html_url := lit "https://github.com/org/repo/pull/5";
     gp_body := body;
     gp_title := lit "Fix crash";
     gp_user_fullname := lit "octocat";
     gp_assignees := PyNone;
     gp_number := 5 |}.

Definition sample_github_issue : GithubIssue :=
  {| gi_comments := [];
     gi_state := Some (lit "open");
     gi_title := lit "Crash on start";
     gi_html_url := lit "https://github.com/org/repo/issues/7";
     gi_labels := PyList [PyStr (lit "bug")];
     gi_milestone := Some (lit "1.4");
     gi_body := Some (lit "It crashes.");
     gi_user := lit "octocat";
     gi_assignees := PyNone;
     gi_id := 70007;
     gi_number := 7 |}.

(** A routing dictionary whose [mapping] asks for a fix version. *)
Definition sample_mapping_of : Downstream → option (list (gmap pystr pystr)) :=
  λ _, Some [ {[ lit "fixVersion" := lit "Release XXX (stable)" ]} ].


(** ** Proof support *)

Arguments lit : simpl never.
Arguments format_comment : simpl never.

(** An event is not in a list of events built from other constructors. *)
Ltac not_in_list :=
  let H := fresh in
  intros H; repeat (apply elem_of_cons in H as [H|H]; [discriminate H|]);
  by apply elem_of_nil in H.

(** * Properties *)

(** ** Normaliser and trimmer *)

Lemma encode_ascii_replace_pure s : pure_ascii (encode_ascii_replace s).
Proof.
  unfold pure_ascii, encode_ascii_replace.
  induction s as [|c s IH]; simpl; constructor; [|exact IH].
  destruct (N.ltb_spec c 128); [assumption|]. unfold QUESTION_MARK. lia.
Qed.

Lemma remove_char_pure c s : pure_ascii s → pure_ascii (remove_char c s).
Proof.
  unfold pure_ascii, remove_char. rewrite !Forall_forall.
  intros H x Hx. apply list_elem_of_filter in Hx as [_ Hx]. by apply H.
Qed.

Lemma remove_char_absent c s : c ∉ remove_char c s.
Proof.
  unfold remove_char. intros Hin.
  apply list_elem_of_filter in Hin as [Hne _]. by apply Hne.
Qed.

Lemma scrub_content_clean s :
  pure_ascii (scrub_content s) ∧ BACKSLASH ∉ scrub_content s.
Proof.
  unfold scrub_content. split.
  - apply remove_char_pure, encode_ascii_replace_pure.
  - apply remove_char_absent.
Qed.

Lemma len_take_le {A} (n : Z) (s : list A) :
  (0 ≤ n)%Z → (len (slice_to n s) ≤ n)%Z.
Proof. unfold len, slice_to. rewrite length_take. lia. Qed.

(** C8: a trimmed comment body is at most 65000 characters long; a body of at
    most 65000 characters comes back as it is, and a longer one comes back as
    its first 65000 characters. The function is total: no input makes it
    fail. *)
Theorem trimCommentBody_bounded (s : pystr) :
  (len (trimCommentBody s) ≤ 65000)%Z
  ∧ ((len s ≤ 65000)%Z → trimCommentBody s = s)
  ∧ ((len s > 65000)%Z →
       trimCommentBody s = take (Z.to_nat 65000) s
       ∧ trimCommentBody s `prefix_of` s
       ∧ len (trimCommentBody s) = 65000%Z).
Proof.
  unfold trimCommentBody. case_bool_decide as Hlen.
  - split; [by apply len_take_le|]. split; [lia|]. intros _.
    split; [reflexivity|]. split; [apply prefix_take|].
    unfold len, slice_to in *. rewrite length_take. lia.
  - split; [lia|]. split; [done|]. lia.
Qed.

Lemma trimCommentBody_bounded_witness :
  trimCommentBody (lit "LGTM, see FACTORY-1") = lit "LGTM, see FACTORY-1".
Proof.
  apply (proj1 (proj2 (trimCommentBody_bounded (lit "LGTM, see FACTORY-1")))).
  vm_compute. discriminate.
Defined.

(** ** Constructors *)





Example scrub_content_sample :
  scrub_content (lit "caf" ++ [233; 92; 128512] ++ lit " \\o/") = lit "caf?? o/".
Proof. reflexivity. Qed.

Example PR_init_sample :
  PR.content <$>
    (match PR.__init__ (lit "github") [] (lit "t") (lit "u") (lit "org/repo")
             sample_config [] PyNone (Some (lit "a\\b" ++ [955])) (lit "r")
             PyNone PyNone 5 (lit "opened") [] None with
     | Ok p => Some p
     | Raise _ => None
     end)
  = Some (Some (lit "ab?")).
Proof. reflexivity. Qed.

(** ** Comment templates *)

Lemma strip_brackets_filter title :
  strip_brackets title = filter (λ c, c ≠ 91 ∧ c ≠ 93) title.
Proof. unfold strip_brackets, remove_char. by rewrite list_filter_filter. Qed.

(** C9: for a PR whose suffix is ["merged"], the comment is
    [Merge request [{title}|{url}] was merged!], the title being the PR's
    derived title [[upstream] raw-title] without its square brackets. *)
Theorem format_comment_merged (p : PR.t) (config : Config) :
  PR.suffix p = lit "merged" →
  format_comment (IsPR p) (PR.suffix p) config =
    Ok (lit "Merge request ["
        ++ filter (λ c, c ≠ 91 ∧ c ≠ 93)
                  (lit "[" ++ PR.upstream p ++ lit "] " ++ PR._title p)
        ++ lit "|" ++ PR.url p ++ lit "] was merged!").
Proof.
  intros Hsuffix. unfold format_comment. simpl get_reporter. cbv iota beta.
  rewrite Hsuffix.
  change (contains (lit "closed") (lit "merged")) with false.
  change (contains (lit "reopened") (lit "merged")) with false.
  change (contains (lit "merged") (lit "merged")) with true.
  cbv iota. by rewrite strip_brackets_filter.
Qed.

Lemma format_comment_merged_witness :
  format_comment
    (IsPR (sample_pr (lit "Fix [crash] on start") (lit "merged") []))
    (lit "merged") sample_config
  = Ok (lit "Merge request [org/repo Fix crash on start|https://github.com/org/repo/pull/5] was merged!").
Proof.
  exact (format_comment_merged
           (sample_pr (lit "Fix [crash] on start") (lit "merged") [])
           sample_config eq_refl).
Defined.

Example format_comment_mention_sample :
  format_comment (IsPR (sample_pr (lit "Fix crash") (lit "opened") []))
    (lit "opened") sample_config
  = Ok (lit "[~accountid:5b10ac8d82e05b22cc7d4ef5] mentioned this issue in merge request [org/repo Fix crash| https://github.com/org/repo/pull/5].").
Proof. reflexivity. Qed.

(** ** Matcher *)

Section MatcherFacts.

Variables ua ud : char → bool.

Implicit Types (s m r : list N).

Lemma match_dash_digits_dash s m r :
  match_dash_digits ud s = Some (m, r) → DASH ∈ m.
Proof.
  destruct s as [|c s]; simpl; [done|].
  case_bool_decide as Hc; [|done].
  destruct (span _ s) as [d r']. intros [= <- <-]. subst c. apply list_elem_of_here.
Qed.

Lemma match_here_dash s m r : match_here ua ud s = Some (m, r) → DASH ∈ m.
Proof.
  revert m r. induction s as [|c s IH]; intros m r; [done|].
  cbn [match_here].
  destruct (is_word _ c); [|apply match_dash_digits_dash].
  destruct (match_here ua ud s) as [[m' r']|] eqn:Hs.
  - intros [= <- <-]. apply list_elem_of_further. by eapply IH.
  - apply match_dash_digits_dash.
Qed.

Lemma match_here_prefix s m r : match_here ua ud s = Some (m, r) → m `prefix_of` s.
Proof.
  assert (Hdd : ∀ s m r,
             match_dash_digits ud s = Some (m, r) → m `prefix_of` s).
  { clear. intros [|c s] m r; simpl; [done|].
    case_bool_decide; [|done].
    assert (Hspan : ∀ s, (span (is_digit ud) s).1 `prefix_of` s).
    { clear. induction s as [|c s IH]; simpl; [done|].
      destruct (is_digit ud c); [|apply prefix_nil].
      destruct (span _ s); simpl in *. by apply prefix_cons. }
    specialize (Hspan s). destruct (span _ s) as [d r']. intros [= <- <-].
    by apply prefix_cons. }
  revert m r. induction s as [|c s IH]; intros m r; [done|].
  cbn [match_here].
  destruct (is_word _ c); [|apply Hdd].
  destruct (match_here ua ud s) as [[m' r']|] eqn:Hs.
  - intros [= <- <-]. apply prefix_cons. by eapply IH.
  - apply Hdd.
Qed.

Lemma search_dash s : search ua ud s = true → DASH ∈ s.
Proof.
  induction s as [|c s IH]; [done|].
  cbn [search].
  destruct (match_here ua ud (c :: s)) as [[m r]|] eqn:Hm.
  - intros _. eapply elem_of_prefix; [by eapply match_here_dash|by eapply match_here_prefix].
  - intros H. apply list_elem_of_further. by apply IH.
Qed.

Lemma all_data_nonempty content comments : all_data_of content comments ≠ [].
Proof.
  unfold all_data_of.
  assert (H : ∀ l acc, acc ≠ [] →
            foldl (λ acc comment, acc ++ lit " " ++ body comment) acc l ≠ []).
  { clear. induction l as [|c l IH]; intros acc Hacc; simpl; [done|].
    apply IH. by destruct acc. }
  specialize (H (reverse comments) (lit " ")).
  destruct content as [[|c content]|]; try by apply H.
  intros Happ. apply app_eq_nil in Happ as [Happ _]. by apply H in Happ.
Qed.

Lemma matcher_total content comments :
  ∃ keys, matcher ua ud content comments = Some keys.
Proof.
  unfold matcher. rewrite bool_decide_eq_true_2 by apply all_data_nonempty.
  eauto.
Qed.

(** C4: the matcher always hands back a list, never [None]; the list has no
    duplicates, and each of its elements has a length other than 1, matches
    the dash-digits pattern, holds a dash and holds a digit. On
    ["See FACTORY-123"] it is the one key [FACTORY-123]; on
    ["dash alone - nothing"], on [None] and on the empty string it is the
    empty list. *)
Theorem matcher_key_set (content : option pystr) (comments : list Comment) :
  (∃ keys, matcher ua ud content comments = Some keys
           ∧ NoDup keys
           ∧ ∀ m, m ∈ keys →
                  len m ≠ 1%Z
                  ∧ search ua ud m = true
                  ∧ DASH ∈ m
                  ∧ ∃ c, c ∈ m ∧ is_digit ud c = true)
  ∧ matcher ua ud (Some (lit "See FACTORY-123")) [] = Some [lit "FACTORY-123"]
  ∧ matcher ua ud (Some (lit "dash alone - nothing")) [] = Some []
  ∧ matcher ua ud None [] = Some []
  ∧ matcher ua ud (Some (lit "")) [] = Some [].
Proof.
  split; [|repeat split; by vm_compute].
  unfold matcher.
  rewrite bool_decide_eq_true_2 by apply all_data_nonempty.
  eexists. split; [reflexivity|]. split.
  - apply NoDup_filter, NoDup_elements.
  - intros m Hm.
    apply list_elem_of_filter in Hm as [[Hsearch Hdigit] Hm].
    apply elem_of_elements, elem_of_list_to_set, list_elem_of_filter in Hm as [Hlen _].
    repeat split; try done.
    + by apply search_dash.
    + unfold search_digit in Hdigit. apply existsb_exists in Hdigit as (c & Hc & Hd).
      exists c. split; [by apply list_elem_of_In|done].
Qed.

End MatcherFacts.

Lemma matcher_key_set_witness :
  len (lit "FACTORY-123") ≠ 1%Z ∧ DASH ∈ lit "FACTORY-123".
Proof.
  destruct (proj1 (matcher_key_set ascii_only ascii_only
                     (Some (lit "See FACTORY-123")) []))
    as (keys & Hkeys & _ & Hall).
  assert (Hin : lit "FACTORY-123" ∈ keys).
  { replace keys with [lit "FACTORY-123"]; [apply list_elem_of_here|].
    vm_compute in Hkeys. by injection Hkeys. }
  destruct (Hall _ Hin) as (Hlen & _ & Hdash & _). by split.
Defined.

Example findall_sample :
  findall ascii_only ascii_only
    (lit "See FACTORY-123 and ABC-1, FACTORY-123 a - b x- --2 a-b-3")
  = [lit "FACTORY-123"; lit "ABC-1"; lit "FACTORY-123"; lit "-"; lit "x-";
     lit "-"; lit "-2"; lit "a-"; lit "b-3"].
Proof. reflexivity. Qed.

Example all_data_sample :
  all_data_of (Some (lit "X-1 then Y-2"))
    [ {| author := []; name := []; body := lit "older A-1"; comment_id := 1;
         date_created := []; changed := None |};
      {| author := []; name := []; body := lit "newer B-2"; comment_id := 2;
         date_created := []; changed := None |} ]
  = lit "  newer B-2 older A-1X-1 then Y-2".
Proof. reflexivity. Qed.

(** ** Constructors: routing and the null-content branch *)

Lemma PR_init_unrouted source jira_key title url upstream config comments
    priority content reporter assignee status id suffix match_ e :
  routing_entry config source upstream = Raise e →
  PR.__init__ source jira_key title url upstream config comments priority
    content reporter assignee status id suffix match_ None = Raise e.
Proof. unfold PR.__init__. by intros ->. Qed.

Lemma Issue_init_unrouted source title url upstream comments config tags
    fixVersion priority content reporter assignee status id upstream_id e :
  routing_entry config source upstream = Raise e →
  Issue.__init__ source title url upstream comments config tags fixVersion
    priority (Some content) reporter assignee status id upstream_id None
  = Raise e.
Proof. unfold Issue.__init__. by intros ->. Qed.

Lemma routing_entry_missing config source upstream :
  (∀ by_project, map config !! source = Some by_project →
                 by_project !! upstream = None) →
  ∃ key, routing_entry config source upstream = Raise (KeyError key).
Proof.
  intros H. unfold routing_entry, subscript.
  destruct (map config !! source) as [by_project|] eqn:Hsrc; [|eauto].
  rewrite (H _ eq_refl). eauto.
Qed.

(** C10: an Issue built with no content has its source, title, URL, upstream
    project, comments, tags, fix version and priority, and nothing else:
    content, reporter, assignee, status, id, upstream id and downstream are
    unbound, reading them raises [AttributeError], and so do routing
    resolution and reconciliation on that object. *)
Theorem Issue_init_null_content source title url upstream comments config
    tags fixVersion priority reporter assignee status id upstream_id downstream :
  ∃ i,
    Issue.__init__ source title url upstream comments config tags fixVersion
      priority None reporter assignee status id upstream_id downstream = Ok i
    ∧ (Issue.source i = source ∧ Issue.upstream_title i = title
       ∧ Issue.title i = format_title upstream title
       ∧ Issue.url i = url ∧ Issue.upstream i = upstream
       ∧ Issue.comments i = comments ∧ Issue.tags i = tags
       ∧ Issue.fixVersion i = fixVersion ∧ Issue.priority i = priority)
    ∧ (Issue.content i = Missing ∧ Issue.reporter i = Missing
       ∧ Issue.assignee i = Missing ∧ Issue.status i = Missing
       ∧ Issue.id i = Missing ∧ Issue.upstream_id i = Missing
       ∧ Issue.downstream i = Missing)
    ∧ (get_content (IsIssue i) = Raise (AttributeError "content")
       ∧ get_reporter (IsIssue i) = Raise (AttributeError "reporter")
       ∧ get_downstream (IsIssue i) = Raise (AttributeError "downstream"))
    ∧ (∀ existing config' j,
         outcome (update_jira_issue existing (IsIssue i) config' j)
         = Raise (AttributeError "downstream"))
    ∧ (∀ unicode_isalnum unicode_isdecimal config' j,
         testing config' = false →
         ∃ attribute,
           outcome (sync_with_jira unicode_isalnum unicode_isdecimal
                      (IsIssue i) config' j)
           = Raise (AttributeError attribute)).
Proof.
  eexists. split; [reflexivity|]. repeat split.
  intros ua ud config' j Htesting. exists "match"%string.
  unfold sync_with_jira, bind, log, emit, outcome. simpl. by rewrite Htesting.
Qed.

Lemma Issue_init_null_content_witness :
  ∃ i, Issue.__init__ (lit "github") (lit "Crash on start")
         (lit "https://github.com/org/repo/issues/7") (lit "org/repo") []
         sample_config PyNone PyNone PyNone None (lit "octocat") PyNone
         PyNone 7 (PyInt 7) None = Ok i
       ∧ Issue.downstream i = Missing
       ∧ ∃ attribute,
           outcome (sync_with_jira ascii_only ascii_only (IsIssue i)
                      sample_config sample_tracker)
           = Raise (AttributeError attribute).
Proof.
  destruct (Issue_init_null_content (lit "github") (lit "Crash on start")
              (lit "https://github.com/org/repo/issues/7") (lit "org/repo") []
              sample_config PyNone PyNone PyNone (lit "octocat") PyNone
              PyNone 7 (PyInt 7) None)
    as (i & Hinit & _ & (_ & _ & _ & _ & _ & _ & Hdownstream) & _ & _ & Hsync).
  exists i. split; [exact Hinit|]. split; [exact Hdownstream|].
  apply (Hsync ascii_only ascii_only sample_config sample_tracker).
  reflexivity.
Defined.

(** C7, at the input where the code departs from it: an Issue built with no
    content, no explicit downstream and a configuration that routes nothing
    is constructed without any error, its downstream unbound; the same
    arguments with a content, and the same arguments to the PR constructor,
    raise the [KeyError] of the missing routing entry. *)
Theorem Issue_init_null_content_skips_routing :
  let build content :=
    Issue.__init__ (lit "github") (lit "Crash on start")
      (lit "https://github.com/org/repo/issues/7") (lit "org/repo") []
      unrouted_config PyNone PyNone PyNone content (lit "octocat") PyNone
      PyNone 7 (PyInt 7) None in
  routing_entry unrouted_config (lit "github") (lit "org/repo")
    = Raise (KeyError (lit "github"))
  ∧ (∃ i, build None = Ok i ∧ Issue.downstream i = Missing)
  ∧ build (Some (lit "It crashes.")) = Raise (KeyError (lit "github"))
  ∧ PR.__init__ (lit "github") [] (lit "Crash on start")
      (lit "https://github.com/org/repo/pull/7") (lit "org/repo")
      unrouted_config [] PyNone None (lit "octocat") PyNone PyNone 7
      (lit "opened") [] None
    = Raise (KeyError (lit "github")).
Proof.
  simpl. split; [reflexivity|]. split; [|split; reflexivity].
  eexists. split; reflexivity.
Qed.

(** ** Reconciliation: the short-circuit *)

(** C6: when the configuration is in testing mode, or the item's match list
    is empty, [sync_with_jira] returns with the tracker as it was and with
    log records only: no client is obtained and the tracker is not called. *)
Theorem sync_with_jira_short_circuit unicode_isalnum unicode_isdecimal
    (pr : item) (config : Config) (j : Tracker) :
  testing config = true ∨ get_match pr = Ok [] →
  let run := sync_with_jira unicode_isalnum unicode_isdecimal pr config j in
  outcome run = Ok tt
  ∧ final run = j
  ∧ Forall (λ e, is_api_call e = false) (events run)
  ∧ GetJiraClient ∉ events run.
Proof.
  intros Hskip. unfold sync_with_jira, bind, log, emit, outcome, final, events.
  simpl. destruct (testing config) eqn:Htesting.
  - simpl. repeat split; [by repeat constructor|]. by not_in_list.
  - destruct Hskip as [|Hmatch]; [done|]. rewrite Hmatch. simpl.
    repeat split; [by repeat constructor|]. by not_in_list.
Qed.

Lemma sync_with_jira_short_circuit_witness :
  events (sync_with_jira ascii_only ascii_only
            (IsPR (sample_pr (lit "Fix crash") (lit "opened") []))
            sample_config sample_tracker)
  = [Log Info "[PR] Considering upstream %s, %s"
       [AStr (lit "https://github.com/org/repo/pull/5");
        AStr (lit "[org/repo] Fix crash")];
     Log Info "[PR] No match found for {pr.title}"
       [AStr (lit "[org/repo] Fix crash")]]
  ∧ GetJiraClient ∉
      events (sync_with_jira ascii_only ascii_only
                (IsPR (sample_pr (lit "Fix crash") (lit "opened") []))
                sample_config sample_tracker).
Proof.
  split; [reflexivity|].
  apply (sync_with_jira_short_circuit ascii_only ascii_only
           (IsPR (sample_pr (lit "Fix crash") (lit "opened") []))
           sample_config sample_tracker).
  right. reflexivity.
Defined.

(** ** Reconciliation: running computations *)

Lemma bind_Ok {A B} (m : M A) (f : A → M B) j a j1 evs1 r j2 evs2 :
  m j = (Ok a, j1, evs1) →
  f a j1 = (r, j2, evs2) →
  bind m f j = (r, j2, evs1 ++ evs2).
Proof. unfold bind. by intros -> ->. Qed.

Lemma lift_Ok {A} (a : A) : lift (Ok a) = ret a.
Proof. reflexivity. Qed.

Lemma run_eta {A} (run : result A * Tracker * list event) :
  run = (outcome run, final run, events run).
Proof. by destruct run as [[r j] evs]. Qed.

Lemma bind_ret {A B} (a : A) (f : A → M B) j : bind (ret a) f j = f a j.
Proof. unfold bind, ret. by destruct (f a j) as [[r j'] evs]. Qed.

Lemma ticket_of_put existing t j existing' :
  ticket_of (put_ticket existing t j) existing'
  = if decide (existing = existing') then t else ticket_of j existing'.
Proof.
  unfold ticket_of, put_ticket. simpl. rewrite lookup_insert.
  by destruct (decide (existing = existing')).
Qed.

Lemma status_only_refl j : status_only j j.
Proof. by repeat split. Qed.

Lemma bind_Raise {A B} (m : M A) (f : A → M B) j e j1 evs1 :
  m j = (Raise e, j1, evs1) → bind m f j = (Raise e, j1, evs1).
Proof. unfold bind. by intros ->. Qed.

Lemma change_status_run existing target pr j :
  ∃ r j' evs, d_issue.change_status existing target pr j = (r, j', evs)
              ∧ normal_or_refused r
              ∧ status_only j j' ∧ Forall transition_event evs
              ∧ ((∀ from to, workflow j from to = true) → r = Ok tt).
Proof.
  unfold d_issue.change_status.
  destruct (workflow j _ target) eqn:Hallowed; eexists _, _, _;
    (split; [reflexivity|]).
  - split; [by left|]. split; [|split; [by repeat constructor|done]].
    repeat split; simpl; rewrite ticket_of_put; by case_decide; subst.
  - split; [by right|]. split; [apply status_only_refl|].
    split; [by repeat constructor|]. intros Hall. by rewrite Hall in Hallowed.
Qed.

Lemma update_transition_PR existing p transition_type j :
  ∃ r j' evs, update_transition existing (IsPR p) transition_type j = (r, j', evs)
              ∧ normal_or_refused r
              ∧ status_only j j' ∧ Forall transition_event evs
              ∧ ((∀ from to, workflow j from to = true) → r = Ok tt).
Proof.
  unfold update_transition. simpl lift. rewrite bind_ret.
  destruct (filter _ _) as [|first rest] eqn:Hfilter.
  - eexists _, _, _. split; [reflexivity|]. split; [by left|].
    split; [apply status_only_refl|]. split; [constructor|done].
  - assert (Hin : first ∈ first :: rest) by apply list_elem_of_here.
    rewrite <- Hfilter in Hin. apply list_elem_of_filter in Hin as [[status Hstatus] _].
    unfold subscript. rewrite Hstatus. simpl lift. rewrite bind_ret.
    destruct (change_status_run existing status (IsPR p) j)
      as (r & j' & evs & Hrun & [-> | ->] & Hj & Hevs & Hall).
    + eexists _, _, _. split; [eapply bind_Ok; [exact Hrun|reflexivity]|].
      split; [by left|]. split; [exact Hj|]. split; [|done].
      apply Forall_app. split; [exact Hevs|]. by repeat constructor.
    + eexists _, _, _. split; [eapply bind_Raise; exact Hrun|].
      split; [by right|]. split; [exact Hj|]. split; [exact Hevs|exact Hall].
Qed.

Lemma format_comment_PR p pr_suffix config :
  ∃ comment, format_comment (IsPR p) pr_suffix config = Ok comment.
Proof. unfold format_comment. simpl. eauto. Qed.

Lemma filter_transition_events (f : event → bool) evs :
  (∀ e, transition_event e → f e = false) →
  Forall transition_event evs → List.filter f evs = [].
Proof.
  intros Hf. induction 1 as [|e evs He _ IH]; [done|].
  simpl. by rewrite (Hf e He).
Qed.

Lemma guarded_transition_PR (b : bool) message existing p transition_type j :
  ∃ r j' evs,
    when_ b (log Info message [] ;;
             update_transition existing (IsPR p) transition_type) j
    = (r, j', if b then Log Info message [] :: evs else [])
    ∧ normal_or_refused r
    ∧ status_only j j' ∧ Forall transition_event evs
    ∧ ((∀ from to, workflow j from to = true) → r = Ok tt).
Proof.
  destruct b; simpl.
  - destruct (update_transition_PR existing p transition_type j)
      as (r & j' & evs & Hrun & Hr & Hj & Hevs & Hall).
    exists r, j', evs.
    split; [|split; [exact Hr|split; [exact Hj|split; [exact Hevs|exact Hall]]]].
    change (Log Info message [] :: evs) with ([Log Info message []] ++ evs).
    eapply bind_Ok; [reflexivity|exact Hrun].
  - exists (Ok tt), j, []. split; [reflexivity|]. split; [by left|].
    split; [apply status_only_refl|]. split; [constructor|done].
Qed.

Lemma attach_step (b : bool) existing link j :
  ∃ j',
    when_ (negb b) (d_issue.attach_link existing link) j
    = (Ok tt, j', if b then [] else [AttachLink existing link])
    ∧ search_answer j' = search_answer j
    ∧ workflow j' = workflow j
    ∧ ticket_links (ticket_of j' existing)
      = ticket_links (ticket_of j existing) ++ (if b then [] else [link])
    ∧ ticket_comments (ticket_of j' existing)
      = ticket_comments (ticket_of j existing).
Proof.
  destruct b; simpl; eexists; (split; [reflexivity|]).
  - by rewrite app_nil_r.
  - rewrite ticket_of_put, decide_True by done. done.
Qed.

Lemma comment_step (b : bool) existing p comment j :
  ∃ j',
    when_ (negb b)
      (jira_key <- lift (get_jira_key (IsPR p)) ;;
       log Info "Added comment for PR {pr.title} on JIRA {pr.jira_key}"
           [AStr (get_title (IsPR p)); AList jira_key] ;;
       client.add_comment existing comment) j
    = (Ok tt, j',
       if b then []
       else [Log Info "Added comment for PR {pr.title} on JIRA {pr.jira_key}"
               [AStr (PR.title p); AList (PR.jira_key p)];
             AddComment existing comment])
    ∧ search_answer j' = search_answer j
    ∧ workflow j' = workflow j
    ∧ ticket_links (ticket_of j' existing)
      = ticket_links (ticket_of j existing)
    ∧ ticket_comments (ticket_of j' existing)
      = ticket_comments (ticket_of j existing) ++ (if b then [] else [comment]).
Proof.
  destruct b; simpl; eexists; (split; [reflexivity|]).
  - by rewrite app_nil_r.
  - rewrite ticket_of_put, decide_True by done. done.
Qed.

Lemma transition_events_not_started evs :
  Forall transition_event evs → link_transition_started ∉ evs.
Proof.
  intros Hevs Hin. rewrite Forall_forall in Hevs.
  by specialize (Hevs _ Hin).
Qed.

(** The events of the two guarded transition blocks of an update: those of
    the merge block, followed by those of the link block when the merge
    block did not raise. *)
Lemma transition_blocks_quiet (f : event → bool) (mg lg : bool) message3
    message4 evs3 evs4 (tail : list event) :
  (∀ e, transition_event e → f e = false) →
  (∀ lvl message args, f (Log lvl message args) = false) →
  Forall transition_event evs3 → Forall transition_event evs4 →
  tail = [] ∨ tail = (if lg then Log Info message4 [] :: evs4 else []) →
  List.filter f ((if mg then Log Info message3 [] :: evs3 else []) ++ tail) = [].
Proof.
  intros Hf Hlog Hevs3 Hevs4 Htail. rewrite List.filter_app.
  assert (H3 : List.filter f evs3 = []) by (by apply filter_transition_events).
  assert (H4 : List.filter f evs4 = []) by (by apply filter_transition_events).
  destruct Htail as [-> | ->]; destruct mg, lg; simpl; by rewrite ?Hlog, ?H3, ?H4.
Qed.

(** One run of [update_jira_issue] on a PR: it ends normally or in the
    tracker's refusal of a status; the ticket gains the link and the comment
    exactly when they were not there; nothing else is attached, added or
    searched; the link-transition block is entered only when its guard
    holds, and always then when the run ends normally. *)
Lemma update_jira_issue_PR existing p config j comment :
  format_comment (IsPR p) (PR.suffix p) config = Ok comment →
  ∃ r j' evs,
    update_jira_issue existing (IsPR p) config j = (r, j', evs)
    ∧ normal_or_refused r
    ∧ search_answer j' = search_answer j
    ∧ workflow j' = workflow j
    ∧ ticket_links (ticket_of j' existing)
      = ticket_links (ticket_of j existing)
        ++ (if link_present j existing (PR.url p) then [] else [pr_link p])
    ∧ ticket_comments (ticket_of j' existing)
      = ticket_comments (ticket_of j existing)
        ++ (if comment_present j existing comment then [] else [comment])
    ∧ List.filter is_attach_link evs
      = (if link_present j existing (PR.url p) then []
         else [AttachLink existing (pr_link p)])
    ∧ List.filter is_add_comment evs
      = (if comment_present j existing comment then []
         else [AddComment existing comment])
    ∧ List.filter is_search_issues evs = []
    ∧ (link_transition_started ∈ evs →
       any_has (lit "link_transition")
         (default [] (pr_updates (PR.downstream p)))
       && contains (lit "mentioned") comment
       && negb (link_present j existing (PR.url p)) = true)
    ∧ (r = Ok tt →
       any_has (lit "link_transition")
         (default [] (pr_updates (PR.downstream p)))
       && contains (lit "mentioned") comment
       && negb (link_present j existing (PR.url p)) = true →
       link_transition_started ∈ evs)
    ∧ ((∀ from to, workflow j from to = true) → r = Ok tt).
Proof.
  intros Hcomment.
  assert (Hlinks : issue_link_exists existing (IsPR p) j
                   = (Ok (link_present j existing (PR.url p)), j, [RemoteLinks existing]))
    by reflexivity.
  assert (Hcomments : comment_exists existing comment j
                   = (Ok (comment_present j existing comment), j, [Comments existing]))
    by reflexivity.
  destruct (attach_step (link_present j existing (PR.url p)) existing
              (pr_link p) j) as (j1 & Hrun1 & Hs1 & Hw1 & Hl1 & Hc1).
  destruct (comment_step (comment_present j existing comment) existing p
              comment j1) as (j2 & Hrun2 & Hs2 & Hw2 & Hl2 & Hc2).
  destruct (guarded_transition_PR
              (any_has (lit "merge_transition")
                 (default [] (pr_updates (PR.downstream p)))
               && contains (lit "merged") (PR.suffix p))
              "Looking for new merged_transition" existing p
              (lit "merge_transition") j2)
    as (r3 & j3 & evs3 & Hrun3 & Hr3 & Hj3 & Hevs3 & Hall3).
  destruct (guarded_transition_PR
              (any_has (lit "link_transition")
                 (default [] (pr_updates (PR.downstream p)))
               && contains (lit "mentioned") comment
               && negb (link_present j existing (PR.url p)))
              "Looking for new link_transition" existing p
              (lit "link_transition") j3)
    as (r4 & j4 & evs4 & Hrun4 & Hr4 & Hj4 & Hevs4 & Hall4).
  destruct Hj3 as (Hs3 & Hw3 & Ht3), Hj4 as (Hs4 & Hw4 & Ht4).
  destruct (Ht3 existing) as [Hl3 Hc3], (Ht4 existing) as [Hl4 Hc4].
  set (mg := any_has (lit "merge_transition") _ && _) in *.
  set (lg := any_has (lit "link_transition") _ && _ && _) in *.
  set (evs_link := if link_present j existing (PR.url p) then []
                   else [AttachLink existing (pr_link p)]) in *.
  set (evs_comment :=
         if comment_present j existing comment then []
         else [Log Info "Added comment for PR {pr.title} on JIRA {pr.jira_key}"
                 [AStr (PR.title p); AList (PR.jira_key p)];
               AddComment existing comment]) in *.
  set (evs_merge := if mg then Log Info "Looking for new merged_transition" [] :: evs3
                    else []) in *.
  set (evs_started := if lg then Log Info "Looking for new link_transition" [] :: evs4
                      else []) in *.
  assert (Hshape : ∃ r j' tail,
             update_jira_issue existing (IsPR p) config j
             = (r, j', [RemoteLinks existing] ++ [Comments existing] ++ evs_link
                        ++ evs_comment ++ evs_merge ++ tail)
             ∧ normal_or_refused r
             ∧ (j' = j3 ∨ j' = j4)
             ∧ (tail = [] ∧ r ≠ Ok tt ∨ tail = evs_started)
             ∧ ((∀ from to, workflow j from to = true) → r = Ok tt)).
  { unfold update_jira_issue.
    change (get_downstream (IsPR p)) with (Ok (PR.downstream p)).
    change (get_suffix (IsPR p)) with (Ok (PR.suffix p)).
    rewrite !lift_Ok, !bind_ret. rewrite Hcomment, lift_Ok, bind_ret.
    destruct Hr3 as [-> | ->].
    - exists r4, j4, evs_started. split.
      { eapply bind_Ok; [exact Hlinks|]. eapply bind_Ok; [exact Hcomments|].
        eapply bind_Ok; [exact Hrun1|]. eapply bind_Ok; [exact Hrun2|].
        eapply bind_Ok; [exact Hrun3|exact Hrun4]. }
      split; [done|]. split; [by right|]. split; [by right|].
      intros Hall. apply Hall4. intros from to. by rewrite Hw3, Hw2, Hw1.
    - exists (Raise TransitionError), j3, [].
      split; [|split; [by right|split; [by left|split; [by left|]]]].
      2: { intros Hall. apply Hall3. intros from to. by rewrite Hw2, Hw1. }
      rewrite app_nil_r.
      eapply bind_Ok; [exact Hlinks|]. eapply bind_Ok; [exact Hcomments|].
      eapply bind_Ok; [exact Hrun1|]. eapply bind_Ok; [exact Hrun2|].
      eapply bind_Raise; exact Hrun3. }
  clear Hrun1 Hrun2 Hrun3 Hrun4 Hlinks Hcomments.
  destruct Hshape as (r & j' & tail & Hrun & Hr & Hj' & Htail & Hall).
  exists r, j'. eexists. split; [exact Hrun|]. split; [exact Hr|].
  split; [destruct Hj' as [-> | ->]; congruence|].
  split; [destruct Hj' as [-> | ->]; congruence|].
  split; [destruct Hj' as [-> | ->]; congruence|].
  split; [destruct Hj' as [-> | ->]; congruence|].
  assert (Hquiet : ∀ f, (∀ e, transition_event e → f e = false) →
                        (∀ lvl message args, f (Log lvl message args) = false) →
                        List.filter f (evs_merge ++ tail) = []).
  { intros f Hf Hlog. eapply transition_blocks_quiet; try done.
    destruct Htail as [[-> _] | ->]; [by left|by right]. }
  apply transition_events_not_started in Hevs3 as Hno3.
  apply transition_events_not_started in Hevs4 as Hno4.
  split; [|split; [|split; [|split; [|split; [|exact Hall]]]]].
  - rewrite !List.filter_app, <- (List.filter_app _ evs_merge), Hquiet
      by (done || by intros []).
    unfold evs_link, evs_comment.
    by destruct (link_present _ _ _), (comment_present _ _ _).
  - rewrite !List.filter_app, <- (List.filter_app _ evs_merge), Hquiet
      by (done || by intros []).
    unfold evs_link, evs_comment.
    by destruct (link_present _ _ _), (comment_present _ _ _).
  - rewrite !List.filter_app, <- (List.filter_app _ evs_merge), Hquiet
      by (done || by intros []).
    unfold evs_link, evs_comment.
    by destruct (link_present _ _ _), (comment_present _ _ _).
  - intros Hin. rewrite !elem_of_app in Hin.
    destruct Hin as [Hin|[Hin|[Hin|[Hin|[Hin|Hin]]]]].
    + by revert Hin; not_in_list.
    + by revert Hin; not_in_list.
    + unfold evs_link in Hin. by destruct (link_present _ _ _); revert Hin; not_in_list.
    + unfold evs_comment in Hin.
      by destruct (comment_present _ _ _); revert Hin; not_in_list.
    + unfold evs_merge in Hin. destruct mg; [|by apply elem_of_nil in Hin].
      by apply elem_of_cons in Hin as [Hin|Hin].
    + destruct Htail as [[-> _] | ->]; [by apply elem_of_nil in Hin|].
      unfold evs_started in Hin. destruct lg; [done|by apply elem_of_nil in Hin].
  - intros -> Hlg. destruct Htail as [[_ Hne] | ->]; [done|].
    rewrite !elem_of_app. do 5 right. unfold evs_started. rewrite Hlg. left.
Qed.

Lemma existsb_app_hit {A} (f : A → bool) l x :
  f x = true → existsb f (l ++ [x]) = true.
Proof. intros Hx. rewrite existsb_app. simpl. rewrite Hx. by rewrite orb_true_r. Qed.

(** ** Reconciliation: idempotent update *)

(** C1: running [update_jira_issue] for a PR and then running it again on the
    tracker as the first run left it: the first run attaches the remote link
    exactly when no remote link of the ticket had the PR's URL, and adds the
    comment exactly when no comment of the ticket had the very same body; the
    second run attaches no link and adds no comment, and leaves the ticket's
    links and comments as they were. Either run ends normally or in the
    tracker's refusal of a status, after the link and the comment were
    seen to; on a tracker that refuses no status both end normally. *)
Theorem update_jira_issue_idempotent (existing : N) (p : PR.t)
    (config : Config) (j : Tracker) :
  ∃ comment,
    format_comment (IsPR p) (PR.suffix p) config = Ok comment
    ∧ let first := update_jira_issue existing (IsPR p) config j in
      let second := update_jira_issue existing (IsPR p) config (final first) in
      (outcome first = Ok tt ∨ outcome first = Raise TransitionError)
      ∧ (outcome second = Ok tt ∨ outcome second = Raise TransitionError)
      ∧ ((∀ from to, workflow j from to = true) →
         outcome first = Ok tt ∧ outcome second = Ok tt)
      ∧ List.filter is_attach_link (events first)
        = (if link_present j existing (PR.url p) then []
           else [AttachLink existing (pr_link p)])
      ∧ List.filter is_add_comment (events first)
        = (if comment_present j existing comment then []
           else [AddComment existing comment])
      ∧ List.filter is_attach_link (events second) = []
      ∧ List.filter is_add_comment (events second) = []
      ∧ ticket_links (ticket_of (final second) existing)
        = ticket_links (ticket_of (final first) existing)
      ∧ ticket_comments (ticket_of (final second) existing)
        = ticket_comments (ticket_of (final first) existing).
Proof.
  destruct (format_comment_PR p (PR.suffix p) config) as [comment Hcomment].
  exists comment. split; [exact Hcomment|].
  destruct (update_jira_issue_PR existing p config j comment Hcomment)
    as (r1 & j1 & evs1 & Hrun1 & Hr1 & _ & Hw1 & Hl1 & Hc1 & Hattach1 & Hadd1
        & _ & _ & _ & Hall1).
  destruct (update_jira_issue_PR existing p config j1 comment Hcomment)
    as (r2 & j2 & evs2 & Hrun2 & Hr2 & _ & _ & Hl2 & Hc2 & Hattach2 & Hadd2
        & _ & _ & _ & Hall2).
  assert (Hall : (∀ from to, workflow j from to = true) →
                 r1 = Ok tt ∧ r2 = Ok tt).
  { intros Hyes. split; [by apply Hall1|]. apply Hall2.
    intros from to. by rewrite Hw1. }
  assert (Hlink : link_present j1 existing (PR.url p) = true).
  { unfold link_present in *. rewrite Hl1.
    destruct (existsb _ (ticket_links (ticket_of j existing))) eqn:Hold.
    - by rewrite app_nil_r.
    - apply existsb_app_hit. by apply bool_decide_eq_true_2. }
  assert (Hbody : comment_present j1 existing comment = true).
  { unfold comment_present in *. rewrite Hc1.
    destruct (existsb _ (ticket_comments (ticket_of j existing))) eqn:Hold.
    - by rewrite app_nil_r.
    - apply existsb_app_hit. by apply bool_decide_eq_true_2. }
  rewrite Hlink in *. rewrite Hbody in *. rewrite app_nil_r in Hl2, Hc2.
  cbv zeta. rewrite Hrun1. change (final (r1, j1, evs1)) with j1.
  rewrite Hrun2. unfold outcome, final, events. simpl.
  split; [exact Hr1|]. split; [exact Hr2|]. split; [exact Hall|].
  by repeat split.
Qed.

(** ** Reconciliation: the link transition *)

Lemma starts_with_app needle post : starts_with needle (needle ++ post) = true.
Proof.
  induction needle as [|c needle IH]; [done|].
  simpl. by rewrite bool_decide_eq_true_2, IH.
Qed.

Lemma contains_infix needle pre post :
  contains needle (pre ++ needle ++ post) = true.
Proof.
  assert (Hunfold : ∀ hay, starts_with needle hay = true →
                            contains needle hay = true).
  { intros [|c hay] Hhay; simpl; by rewrite Hhay. }
  induction pre as [|c pre IH].
  - apply Hunfold. apply (starts_with_app needle post).
  - change (contains needle ((c :: pre) ++ needle ++ post))
      with (starts_with needle (c :: pre ++ needle ++ post)
            || contains needle (pre ++ needle ++ post)).
    rewrite IH. apply orb_true_r.
Qed.

Lemma Ok_inj {A} (a b : A) : Ok a = Ok b → a = b.
Proof. congruence. Qed.

(** The generic template always holds the word the link-transition guard
    looks for. *)
Lemma mention_template_contains p pr_suffix config comment :
  contains (lit "closed") pr_suffix = false →
  contains (lit "reopened") pr_suffix = false →
  contains (lit "merged") pr_suffix = false →
  format_comment (IsPR p) pr_suffix config = Ok comment →
  contains (lit "mentioned") comment = true.
Proof.
  unfold format_comment. intros -> -> ->. cbn [get_reporter].
  intros <-%Ok_inj.
  match goal with
  | |- contains _ (?reporter ++ _ ++ ?rest) = true =>
      replace (reporter ++ lit " mentioned this issue in " ++ rest)
        with ((reporter ++ lit " ") ++ lit "mentioned"
              ++ (lit " this issue in " ++ rest))
        by (by rewrite <- !app_assoc)
  end.
  apply contains_infix.
Qed.

(** What decides the link transition of one run on a PR: the block is entered
    only when [pr_updates] has a [link_transition] entry, the comment holds
    the text [mentioned], and no remote link had the PR's URL; and it is
    entered whenever these hold and the run ends normally. *)
Lemma link_transition_guard existing p config j comment :
  format_comment (IsPR p) (PR.suffix p) config = Ok comment →
  let run := update_jira_issue existing (IsPR p) config j in
  let guard :=
    any_has (lit "link_transition")
      (default [] (pr_updates (PR.downstream p))) = true
    ∧ contains (lit "mentioned") comment = true
    ∧ link_present j existing (PR.url p) = false in
  (link_transition_started ∈ events run → guard)
  ∧ (outcome run = Ok tt → guard → link_transition_started ∈ events run).
Proof.
  intros Hcomment.
  destruct (update_jira_issue_PR existing p config j comment Hcomment)
    as (r & j' & evs & Hrun & _ & _ & _ & _ & _ & _ & _ & _ & Honly & Hthen & _).
  cbv zeta. rewrite Hrun.
  change (events (r, j', evs)) with evs. change (outcome (r, j', evs)) with r.
  rewrite !andb_true_iff, negb_true_iff in Honly, Hthen. split.
  - intros Hin. destruct (Honly Hin) as [[? ?] ?]. done.
  - intros Hr (? & ? & ?). by apply Hthen.
Qed.

(** C2, at the input where the code departs from it: a PR whose title holds
    the word [mentioned] is closed; its comment is the closed template, no
    remote link to it exists yet and the routing configuration has a
    [link_transition] entry. The run enters the link-transition block and
    moves the ticket to the configured status. *)
Theorem link_transition_on_closed_template :
  let p := sample_pr (lit "Revert mentioned change") (lit "closed")
                     [lit "FACTORY-1"] in
  let run := update_jira_issue 1 (IsPR p) sample_config sample_tracker in
  format_comment (IsPR p) (PR.suffix p) sample_config
    = Ok (lit "Merge request [org/repo Revert mentioned change|https://github.com/org/repo/pull/5] was closed.")
  ∧ link_present sample_tracker 1 (PR.url p) = false
  ∧ events run
    = [RemoteLinks 1; Comments 1;
       AttachLink 1 {| link_url := lit "https://github.com/org/repo/pull/5";
                       link_title := lit "[PR] [org/repo] Revert mentioned change" |};
       Log Info "Added comment for PR {pr.title} on JIRA {pr.jira_key}"
         [AStr (lit "[org/repo] Revert mentioned change");
          AList [lit "FACTORY-1"]];
       AddComment 1 (lit "Merge request [org/repo Revert mentioned change|https://github.com/org/repo/pull/5] was closed.");
       Log Info "Looking for new link_transition" [];
       ChangeStatus 1 (lit "In Review");
       Log Info "Updated {transition_type} for issue {pr.title}"
         [AStr (lit "link_transition");
          AStr (lit "[org/repo] Revert mentioned change")]]
  ∧ ticket_status (ticket_of sample_tracker 1) = lit "Open"
  ∧ ticket_status (ticket_of (final run) 1) = lit "In Review".
Proof. by vm_compute. Qed.

(** ** Reconciliation: the per-key loop *)

Lemma loop_abandon_error pr config jira_key keys j :
  search_answer j (key_query jira_key) = None →
  sync_with_jira_loop pr config (jira_key :: keys) j
  = let rest := sync_with_jira_loop pr config keys j in
    (outcome rest, final rest,
     SearchIssues (key_query jira_key)
     :: Log Warning "No JIRA issue exists for PR: {pr.title}. Query: {query}"
          [AStr (get_title pr); AStr (key_query jira_key)]
     :: events rest).
Proof.
  intros Hanswer. cbn [sync_with_jira_loop]. cbv zeta.
  fold (key_query jira_key).
  unfold bind at 1. unfold try_except_JIRAError, bind at 1.
  unfold client.search_issues. rewrite Hanswer.
  unfold bind, log, emit, ret.
  by destruct (sync_with_jira_loop pr config keys j) as [[r j'] evs].
Qed.

Lemma loop_abandon_count pr config jira_key keys j response :
  search_answer j (key_query jira_key) = Some response →
  length response ≠ 1%nat →
  sync_with_jira_loop pr config (jira_key :: keys) j
  = let rest := sync_with_jira_loop pr config keys j in
    (outcome rest, final rest,
     SearchIssues (key_query jira_key)
     :: Log Warning "{len(response)} JIRA issues found for {pr.title}. Query: {query}"
          [AInt (len response); AStr (get_title pr); AStr (key_query jira_key)]
     :: events rest).
Proof.
  intros Hanswer Hcount. cbn [sync_with_jira_loop]. cbv zeta.
  fold (key_query jira_key).
  unfold bind at 1. unfold try_except_JIRAError, bind at 1.
  unfold client.search_issues. rewrite Hanswer.
  rewrite bool_decide_eq_true_2 by (unfold len; lia).
  unfold bind, log, emit, ret.
  by destruct (sync_with_jira_loop pr config keys j) as [[r j'] evs].
Qed.

Lemma loop_unique p config jira_key keys j existing :
  search_answer j (key_query jira_key) = Some [existing] →
  sync_with_jira_loop (IsPR p) config (jira_key :: keys) j
  = let update := update_jira_issue existing (IsPR p) config j in
    match outcome update with
    | Ok _ =>
        let rest := sync_with_jira_loop (IsPR p) config keys (final update) in
        (outcome rest, final rest,
         SearchIssues (key_query jira_key)
         :: Log Info "Syncing PR {pr.title}" [AStr (PR.title p)]
         :: events update
         ++ Log Info "Done syncing PR {pr.title}" [AStr (PR.title p)]
         :: events rest)
    | Raise e =>
        (Raise e, final update,
         SearchIssues (key_query jira_key)
         :: Log Info "Syncing PR {pr.title}" [AStr (PR.title p)]
         :: events update)
    end.
Proof.
  intros Hanswer. cbn [sync_with_jira_loop]. cbv zeta.
  fold (key_query jira_key).
  unfold bind at 1. unfold try_except_JIRAError, bind at 1.
  unfold client.search_issues. rewrite Hanswer.
  rewrite bool_decide_eq_false_2 by (unfold len; simpl; lia).
  unfold ret at 1. rewrite lift_Ok, bind_ret.
  unfold bind, log, emit, ret.
  destruct (update_jira_issue existing (IsPR p) config j) as [[[[]|e] j'] evs];
    unfold outcome, final, events; simpl; [|done].
  by destruct (sync_with_jira_loop (IsPR p) config keys j') as [[r j''] evs'].
Qed.

(** The loop over the keys of a PR ends normally or in the tracker's refusal
    of a status, leaves the search answers as they were, and sends the
    queries of the keys in order: all of them when it ends normally, as it
    does on a tracker that refuses no status. *)
Lemma loop_PR_total p config keys j :
  let run := sync_with_jira_loop (IsPR p) config keys j in
  normal_or_refused (outcome run)
  ∧ search_answer (final run) = search_answer j
  ∧ List.filter is_search_issues (events run)
    `prefix_of` List.map (λ jira_key, SearchIssues (key_query jira_key)) keys
  ∧ (outcome run = Ok tt →
     List.filter is_search_issues (events run)
     = List.map (λ jira_key, SearchIssues (key_query jira_key)) keys)
  ∧ ((∀ from to, workflow j from to = true) → outcome run = Ok tt).
Proof.
  revert j. induction keys as [|jira_key keys IH]; intros j.
  { cbv zeta. unfold outcome, final, events. simpl.
    split; [by left|]. by repeat split. }
  assert (Habandon : ∀ warning,
            let rest := sync_with_jira_loop (IsPR p) config keys j in
            let run := (outcome rest, final rest,
                        SearchIssues (key_query jira_key)
                        :: Log Warning warning.1 warning.2 :: events rest) in
            normal_or_refused (outcome run)
            ∧ search_answer (final run) = search_answer j
            ∧ List.filter is_search_issues (events run)
              `prefix_of` List.map (λ jira_key, SearchIssues (key_query jira_key))
                            (jira_key :: keys)
            ∧ (outcome run = Ok tt →
               List.filter is_search_issues (events run)
               = List.map (λ jira_key, SearchIssues (key_query jira_key))
                   (jira_key :: keys))
            ∧ ((∀ from to, workflow j from to = true) → outcome run = Ok tt)).
  { intros warning. destruct (IH j) as (Hr & Hsearch & Hprefix & Hall & Hyes).
    cbv zeta. unfold outcome, final, events in *. simpl.
    split; [exact Hr|]. split; [exact Hsearch|].
    split; [by apply prefix_cons|]. split; [|exact Hyes].
    intros Hok. by rewrite Hall. }
  destruct (search_answer j (key_query jira_key))
    as [[|existing [|second response]]|] eqn:Hanswer.
  - rewrite (loop_abandon_count _ _ _ _ _ _ Hanswer) by done.
    apply (Habandon (_, _)).
  - rewrite (loop_unique _ _ _ _ _ _ Hanswer).
    destruct (format_comment_PR p (PR.suffix p) config) as [comment Hcomment].
    destruct (update_jira_issue_PR existing p config j comment Hcomment)
      as (r & j' & evs & Hrun & Hr & Hsame & Hwf & _ & _ & _ & _ & Hquiet
          & _ & _ & Hallowed).
    rewrite Hrun. cbv zeta. change (final (r, j', evs)) with j'.
    change (events (r, j', evs)) with evs. change (outcome (r, j', evs)) with r.
    destruct Hr as [-> | ->].
    + destruct (IH j') as (Hr' & Hsearch & Hprefix & Hall & Hyes).
      unfold outcome, final, events in *. simpl.
      rewrite List.filter_app, Hquiet. simpl.
      split; [exact Hr'|]. split; [congruence|].
      split; [by apply prefix_cons|]. split; [intros Hok; by rewrite Hall|].
      intros Hfree. apply Hyes. intros from to. by rewrite Hwf.
    + unfold outcome, final, events. simpl. rewrite Hquiet.
      split; [by right|]. split; [exact Hsame|].
      split; [apply prefix_cons, prefix_nil|]. split; [done|exact Hallowed].
  - rewrite (loop_abandon_count _ _ _ _ _ _ Hanswer) by done.
    apply (Habandon (_, _)).
  - rewrite (loop_abandon_error _ _ _ _ _ Hanswer).
    apply (Habandon (_, _)).
Qed.




Example sync_with_jira_sample :
  List.filter is_api_call
    (events (sync_with_jira ascii_only ascii_only
               (IsPR (sample_pr (lit "Fix crash") (lit "opened")
                        [lit "ABC-2"; lit "FACTORY-1"]))
               sample_config sample_tracker))
  = [GetJiraClient;
     SearchIssues (lit "Key = ABC-2");
     SearchIssues (lit "Key = FACTORY-1");
     RemoteLinks 1; Comments 1;
     AttachLink 1 {| link_url := lit "https://github.com/org/repo/pull/5";
                     link_title := lit "[PR] [org/repo] Fix crash" |};
     AddComment 1 (lit "[~accountid:5b10ac8d82e05b22cc7d4ef5] mentioned this issue in merge request [org/repo Fix crash| https://github.com/org/repo/pull/5].");
     ChangeStatus 1 (lit "In Review")].
Proof. by vm_compute. Qed.

(** * Further properties *)

(** ** Normaliser and trimmer, continued *)

Lemma remove_char_id c s : c ∉ s → remove_char c s = s.
Proof.
  unfold remove_char. induction s as [|x s IH]; [done|].
  intros Hnotin. apply not_elem_of_cons in Hnotin as [Hne Hs].
  rewrite filter_cons_True by done. by rewrite IH.
Qed.

Lemma encode_ascii_replace_id s : pure_ascii s → encode_ascii_replace s = s.
Proof.
  unfold pure_ascii, encode_ascii_replace.
  induction 1 as [|c s Hc _ IH]; [done|].
  simpl. rewrite IH. by destruct (N.ltb_spec c 128); [|lia].
Qed.

(** X1: the strings that scrubbing leaves as they are are exactly the
    pure-ASCII strings without a backslash; so scrubbing twice is scrubbing
    once. *)
Theorem scrub_content_fixed_point (s : pystr) :
  (scrub_content s = s ↔ pure_ascii s ∧ BACKSLASH ∉ s)
  ∧ scrub_content (scrub_content s) = scrub_content s.
Proof.
  assert (Hfixed : ∀ s', pure_ascii s' ∧ BACKSLASH ∉ s' → scrub_content s' = s').
  { intros s' [Hascii Hback]. unfold scrub_content.
    rewrite encode_ascii_replace_id by done. by apply remove_char_id. }
  split; [split|].
  - intros Hfix. rewrite <- Hfix. apply scrub_content_clean.
  - apply Hfixed.
  - apply Hfixed, scrub_content_clean.
Qed.

(** X2: replacing the non-ASCII characters and removing the backslashes can
    be done in either order, and the scrubbed content is shorter than the
    input by the number of its backslashes. *)
Theorem scrub_content_commutes (s : pystr) :
  scrub_content s = encode_ascii_replace (remove_char BACKSLASH s)
  ∧ length (scrub_content s)
    = (length s - length (filter (λ c, c = BACKSLASH) s))%nat.
Proof.
  unfold scrub_content, remove_char, encode_ascii_replace.
  induction s as [|c s [IH1 IH2]]; [done|].
  simpl. destruct (decide (c = BACKSLASH)) as [->|Hne].
  - rewrite filter_cons_False by (by intros H; apply H).
    rewrite (filter_cons_True (λ c, c = BACKSLASH)) by done.
    change (92 <? 128) with true. cbv iota.
    rewrite filter_cons_False by (by intros H; apply H).
    split; [exact IH1|]. simpl. exact IH2.
  - rewrite (filter_cons_True (λ x, x ≠ BACKSLASH) c s) by done.
    rewrite (filter_cons_False (λ c, c = BACKSLASH)) by done.
    pose proof (length_filter (λ c, c = BACKSLASH) s) as Hcount.
    simpl. destruct (N.ltb_spec c 128).
    + rewrite filter_cons_True by done. split; [by rewrite IH1|].
      simpl. rewrite IH2. lia.
    + rewrite filter_cons_True by done. split; [by rewrite IH1|].
      simpl. rewrite IH2. lia.
Qed.

Lemma trimCommentBody_len s : (len (trimCommentBody s) ≤ 65000)%Z.
Proof.
  unfold trimCommentBody. case_bool_decide; [by apply len_take_le|lia].
Qed.

Lemma trimCommentBody_prefix s : trimCommentBody s `prefix_of` s.
Proof.
  unfold trimCommentBody, slice_to. case_bool_decide; [apply prefix_take|done].
Qed.

(** X3: trimming a trimmed comment body changes nothing, and what trimming
    returns is always a prefix of its input. *)
Theorem trimCommentBody_idempotent (s : pystr) :
  trimCommentBody (trimCommentBody s) = trimCommentBody s
  ∧ trimCommentBody s `prefix_of` s.
Proof.
  split; [|apply trimCommentBody_prefix].
  pose proof (trimCommentBody_len s) as Hlen.
  unfold trimCommentBody at 1. by rewrite bool_decide_eq_false_2 by lia.
Qed.

(** ** Matcher, continued *)

Section MatcherStructure.

Variables ua ud : char → bool.
Implicit Types (s m r w d : list N).

Lemma span_digits s d r :
  span (is_digit ud) s = (d, r) → digit_chars ud d ∧ s = d ++ r.
Proof.
  revert d r. induction s as [|c s IH]; intros d r; simpl.
  - intros [= <- <-]. by split; [constructor|].
  - destruct (is_digit ud c) eqn:Hc.
    + destruct (span _ s) as [d' r']. intros [= <- <-].
      destruct (IH d' r' eq_refl) as [Hd ->]. split; [by constructor|done].
    + intros [= <- <-]. by split; [constructor|].
Qed.

Lemma match_dash_digits_shape s m r :
  match_dash_digits ud s = Some (m, r) →
  ∃ d, m = DASH :: d ∧ digit_chars ud d ∧ s = m ++ r.
Proof.
  destruct s as [|c s]; simpl; [done|].
  case_bool_decide as Hc; [|done]. subst c.
  destruct (span _ s) as [d r'] eqn:Hspan. intros [= <- <-].
  destruct (span_digits _ _ _ Hspan) as [Hd ->]. by exists d.
Qed.

Lemma match_here_shape s m r :
  match_here ua ud s = Some (m, r) →
  ∃ w d, m = w ++ DASH :: d ∧ word_chars ua w ∧ digit_chars ud d ∧ s = m ++ r.
Proof.
  revert m r. induction s as [|c s IH]; intros m r; [done|].
  cbn [match_here].
  assert (Hdash : match_dash_digits ud (c :: s) = Some (m, r) →
            ∃ w d, m = w ++ DASH :: d ∧ word_chars ua w ∧ digit_chars ud d
                   ∧ c :: s = m ++ r).
  { intros (d & -> & Hd & Hs)%match_dash_digits_shape.
    exists [], d. by repeat split; [constructor|..]. }
  destruct (is_word ua c) eqn:Hc; [|exact Hdash].
  destruct (match_here ua ud s) as [[m' r']|] eqn:Hs; [|exact Hdash].
  intros [= <- <-]. destruct (IH m' r' eq_refl) as (w & d & -> & Hw & Hd & ->).
  exists (c :: w), d. by repeat split; [constructor|..].
Qed.

Lemma findall_from_elem k s m :
  m ∈ findall_from ua ud k s →
  ∃ pre r, s = pre ++ m ++ r ∧ match_here ua ud (m ++ r) = Some (m, r).
Proof.
  revert k. induction s as [|c s IH]; intros k; cbn [findall_from].
  - by intros ?%elem_of_nil.
  - assert (Hrest : ∀ k', m ∈ findall_from ua ud k' s →
              ∃ pre r, c :: s = pre ++ m ++ r
                       ∧ match_here ua ud (m ++ r) = Some (m, r)).
    { intros k' (pre & r & -> & Hm)%IH. by exists (c :: pre), r. }
    destruct k as [|k]; [|apply Hrest].
    destruct (match_here ua ud (c :: s)) as [[m' r']|] eqn:Hhere; [|apply Hrest].
    intros [->|Hin]%elem_of_cons; [|by eapply Hrest].
    destruct (match_here_shape _ _ _ Hhere) as (_ & _ & _ & _ & _ & Hs).
    exists [], r'. rewrite <- Hs. by split.
Qed.

Lemma matcher_keys_found content comments keys m :
  matcher ua ud content comments = Some keys → m ∈ keys →
  m ∈ findall ua ud (all_data_of content comments).
Proof.
  unfold matcher. case_bool_decide; [|done]. intros <-%(inj Some) Hm.
  apply list_elem_of_filter in Hm as [_ Hm].
  by apply elem_of_elements, elem_of_list_to_set, list_elem_of_filter in Hm as [_ Hm].
Qed.

(** X4: every key the matcher returns is made of word characters, one dash
    and digits, in this order, and stands as it is in the text that was
    searched. *)
Theorem matcher_key_shape content comments keys m :
  matcher ua ud content comments = Some keys → m ∈ keys →
  (∃ w d, m = w ++ DASH :: d ∧ word_chars ua w ∧ digit_chars ud d)
  ∧ (∃ pre post, all_data_of content comments = pre ++ m ++ post).
Proof.
  intros Hkeys Hm.
  apply (matcher_keys_found _ _ _ _ Hkeys), findall_from_elem in Hm
    as (pre & r & Htext & Hhere).
  destruct (match_here_shape _ _ _ Hhere) as (w & d & -> & Hw & Hd & _).
  split; [by exists w, d|by exists pre, r].
Qed.

Lemma span_digits_app d rest :
  digit_chars ud d →
  (∀ c, head rest = Some c → is_digit ud c = false) →
  span (is_digit ud) (d ++ rest) = (d, rest).
Proof.
  intros Hd Hrest. induction Hd as [|c d Hc _ IH]; simpl.
  - destruct rest as [|c rest]; [done|]. simpl. by rewrite (Hrest c).
  - by rewrite Hc, IH.
Qed.

Lemma match_here_key w d rest :
  word_chars ua w → digit_chars ud d →
  (∀ c, head rest = Some c → is_digit ud c = false) →
  match_here ua ud (w ++ DASH :: d ++ rest) = Some (w ++ DASH :: d, rest).
Proof.
  intros Hw Hd Hrest. induction Hw as [|c w Hc _ IH].
  - cbn [app match_here]. change (is_word ua DASH) with false.
    cbn [match_dash_digits].
    rewrite bool_decide_eq_true_2 by done. by rewrite span_digits_app.
  - cbn [app match_here]. cbn [app] in IH. by rewrite Hc, IH.
Qed.

(** No match starts inside dash-free text that ends in a character which is
    neither a word character nor a dash. *)
Lemma match_here_separator q x t :
  DASH ∉ q → x ≠ DASH → is_word ua x = false →
  match_here ua ud (q ++ x :: t) = None.
Proof.
  intros Hq Hx Hword. induction q as [|c q IH].
  - cbn [app match_here]. rewrite Hword. cbn [match_dash_digits].
    by rewrite bool_decide_eq_false_2.
  - apply not_elem_of_cons in Hq as [Hc Hq].
    cbn [app match_here]. rewrite (IH Hq).
    cbn [match_dash_digits]. rewrite bool_decide_eq_false_2 by done.
    by destruct (is_word ua c).
Qed.

Lemma findall_separator q x t :
  DASH ∉ q → x ≠ DASH → is_word ua x = false →
  findall_from ua ud 0 (q ++ x :: t) = findall_from ua ud 0 t.
Proof.
  intros Hq Hx Hword. induction q as [|c q IH].
  - pose proof (match_here_separator [] x t Hq Hx Hword) as Hnone.
    cbn [app] in Hnone. cbn [app findall_from]. by rewrite Hnone.
  - pose proof (match_here_separator (c :: q) x t Hq Hx Hword) as Hnone.
    apply not_elem_of_cons in Hq as [Hc Hq].
    cbn [app] in Hnone. cbn [app findall_from]. rewrite Hnone. by apply IH.
Qed.

Lemma findall_dash_free s : DASH ∉ s → findall ua ud s = [].
Proof.
  intros Hs. destruct (findall ua ud s) as [|m ms] eqn:Hall; [done|].
  assert (Hm : m ∈ findall_from ua ud 0 s)
    by (unfold findall in Hall; rewrite Hall; left).
  apply findall_from_elem in Hm as (pre & r & -> & Hhere).
  destruct (match_here_shape _ _ _ Hhere) as (w & d & -> & _).
  exfalso. apply Hs.
  apply elem_of_app. right. apply elem_of_app. left.
  apply elem_of_app. right. left.
Qed.

Lemma search_of_match s m r :
  match_here ua ud s = Some (m, r) → search ua ud s = true.
Proof. destruct s as [|c s]; [done|]. cbn [search]. by intros ->. Qed.

(** X5: a key written in the PR body is found: when the body is some
    dash-free text that does not end in a word character, then word
    characters, a dash and at least one digit, then text that does not go on
    with a digit, the matcher returns that key. *)
Theorem matcher_finds_key pre w d post :
  DASH ∉ pre →
  (∀ x, last pre = Some x → is_word ua x = false) →
  word_chars ua w → digit_chars ud d → d ≠ [] →
  (∀ c, head post = Some c → is_digit ud c = false) →
  ∃ keys, matcher ua ud (Some (pre ++ (w ++ DASH :: d) ++ post)) [] = Some keys
          ∧ w ++ DASH :: d ∈ keys.
Proof.
  intros Hpre Hlast Hw Hd Hne Hpost.
  set (key := w ++ DASH :: d).
  unfold matcher. rewrite bool_decide_eq_true_2 by apply all_data_nonempty.
  eexists. split; [reflexivity|].
  assert (Hhere : ∀ rest, (∀ c, head rest = Some c → is_digit ud c = false) →
            match_here ua ud (key ++ rest) = Some (key, rest)).
  { intros rest Hrest. unfold key. rewrite <- app_assoc. cbn [app].
    by apply match_here_key. }
  apply list_elem_of_filter. split.
  - split.
    + eapply search_of_match. rewrite <- (app_nil_r key) at 1. by apply Hhere.
    + unfold search_digit, key. rewrite existsb_app.
      destruct d as [|c d]; [done|]. apply Forall_cons in Hd as [Hc _].
      simpl. rewrite Hc. by rewrite !orb_true_r.
  - apply elem_of_elements, elem_of_list_to_set, list_elem_of_filter. split.
    + unfold len, key. rewrite length_app. simpl.
      destruct d; [done|]. simpl. lia.
    + unfold findall.
      assert (Htext : all_data_of (Some (pre ++ key ++ post)) []
                      = lit " " ++ pre ++ key ++ post).
      { unfold all_data_of. simpl.
        destruct (pre ++ key ++ post) eqn:Heq; [|done].
        apply app_eq_nil in Heq as [_ Heq]. apply app_eq_nil in Heq as [Heq _].
        unfold key in Heq. by destruct w. }
      rewrite Htext.
      assert (Hscan : findall_from ua ud 0 (lit " " ++ pre ++ key ++ post)
                      = findall_from ua ud 0 (key ++ post)).
      { destruct (decide (pre = [])) as [->|Hnonempty].
        - apply (findall_separator [] 32 (key ++ post));
            [apply not_elem_of_nil|done|done].
        - destruct (exists_last Hnonempty) as (q & x & ->).
          rewrite <- (app_assoc q [x]). cbn [app].
          change (lit " " ++ q ++ x :: key ++ post)
            with ((32 :: q) ++ x :: key ++ post).
          apply findall_separator.
          + apply not_elem_of_cons. split; [done|].
            intros Hin. apply Hpre. apply elem_of_app. by left.
          + intros ->. apply Hpre. apply elem_of_app. right. left.
          + apply Hlast. by rewrite last_snoc. }
      rewrite Hscan. specialize (Hhere post Hpost).
      destruct (key ++ post) as [|c rest] eqn:Hkey.
      { unfold key in Hkey. by destruct w. }
      cbn [findall_from]. rewrite Hhere. left.
Qed.

Lemma all_data_dash_free content comments :
  (∀ c, content = Some c → DASH ∉ c) →
  Forall (λ comment, DASH ∉ body comment) comments →
  DASH ∉ all_data_of content comments.
Proof.
  intros Hcontent Hcomments. unfold all_data_of.
  assert (Hfold : ∀ l acc, DASH ∉ acc → Forall (λ comment, DASH ∉ body comment) l →
            DASH ∉ foldl (λ acc comment, acc ++ lit " " ++ body comment) acc l).
  { clear. induction l as [|c l IH]; intros acc Hacc Hl; [done|].
    apply Forall_cons in Hl as [Hc Hl]. cbn [foldl]. apply IH; [|done].
    apply not_elem_of_app. split; [done|].
    apply not_elem_of_app. split; [|done]. change (lit " ") with [32]. by not_in_list. }
  assert (Hall : DASH ∉ foldl (λ acc comment, acc ++ lit " " ++ body comment)
                          (lit " ") (reverse comments)).
  { apply Hfold; [change (lit " ") with [32]; by not_in_list|].
    by apply Forall_reverse. }
  destruct content as [[|c content]|]; [done| |done].
  apply not_elem_of_app. split; [done|]. by apply Hcontent.
Qed.

Lemma matcher_of_no_match content comments :
  findall ua ud (all_data_of content comments) = [] →
  matcher ua ud content comments = Some [].
Proof.
  intros Hnone. unfold matcher.
  rewrite bool_decide_eq_true_2 by apply all_data_nonempty.
  rewrite Hnone, filter_nil. simpl. by rewrite elements_empty.
Qed.

(** X6: without a dash there is no key: when neither the content nor any
    comment body holds a dash, the matcher returns the empty list. *)
Theorem matcher_dash_free content comments :
  (∀ c, content = Some c → DASH ∉ c) →
  Forall (λ comment, DASH ∉ body comment) comments →
  matcher ua ud content comments = Some [].
Proof.
  intros Hcontent Hcomments.
  apply matcher_of_no_match, findall_dash_free. by apply all_data_dash_free.
Qed.

End MatcherStructure.

Lemma scrub_content_fixed_point_witness :
  scrub_content (lit "Relates to FACTORY-1") = lit "Relates to FACTORY-1".
Proof.
  apply (proj1 (scrub_content_fixed_point (lit "Relates to FACTORY-1"))). split.
  - unfold pure_ascii. vm_compute. repeat constructor.
  - vm_compute. by not_in_list.
Defined.

Lemma matcher_key_shape_witness :
  ∃ w d, lit "FACTORY-123" = w ++ DASH :: d
         ∧ word_chars ascii_only w ∧ digit_chars ascii_only d.
Proof.
  apply (matcher_key_shape ascii_only ascii_only (Some (lit "See FACTORY-123")) []
           [lit "FACTORY-123"] (lit "FACTORY-123")).
  - by vm_compute.
  - left.
Defined.

Lemma matcher_finds_key_witness :
  ∃ keys, matcher ascii_only ascii_only
            (Some (lit "Fixes " ++ (lit "FACTORY" ++ DASH :: lit "123") ++ lit ".")) []
          = Some keys
          ∧ lit "FACTORY" ++ DASH :: lit "123" ∈ keys.
Proof.
  apply (matcher_finds_key ascii_only ascii_only (lit "Fixes ") (lit "FACTORY")
           (lit "123") (lit ".")).
  - vm_compute. by not_in_list.
  - intros x Hx. vm_compute in Hx. injection Hx as <-. reflexivity.
  - unfold word_chars. vm_compute. repeat constructor.
  - unfold digit_chars. vm_compute. repeat constructor.
  - discriminate.
  - intros c Hc. vm_compute in Hc. injection Hc as <-. reflexivity.
Defined.

Lemma matcher_dash_free_witness :
  matcher ascii_only ascii_only (Some (lit "no ticket here")) [] = Some [].
Proof.
  apply matcher_dash_free.
  - intros c Hc. injection Hc as <-. vm_compute. by not_in_list.
  - constructor.
Defined.

(** ** [str.replace] and the fix-version mapping *)

Lemma contains_cons needle c hay :
  contains needle (c :: hay) = starts_with needle (c :: hay) || contains needle hay.
Proof. reflexivity. Qed.

Lemma replace_from_absent old new s :
  contains old s = false → replace_from 0 old new s = s.
Proof.
  induction s as [|c s IH]; [done|].
  rewrite contains_cons. intros [Hhere Hlater]%orb_false_iff.
  cbn [replace_from]. rewrite Hhere. by rewrite IH.
Qed.

Lemma replace_from_skip k old new s t :
  length s = k → replace_from k old new (s ++ t) = replace_from 0 old new t.
Proof.
  revert k. induction s as [|c s IH]; intros k <-; [done|].
  cbn [app length replace_from]. by apply IH.
Qed.

Lemma starts_with_head o old c hay :
  c ≠ o → starts_with (o :: old) (c :: hay) = false.
Proof. intros Hne. simpl. by rewrite bool_decide_eq_false_2. Qed.

Lemma starts_with_app_long old a b :
  (length old ≤ length a)%nat → starts_with old (a ++ b) = starts_with old a.
Proof.
  revert a. induction old as [|o old IH]; intros [|c a] Hlen; simpl in *;
    [done|done|lia|].
  by rewrite IH by lia.
Qed.

(** The leftmost occurrence of [old], written [init ++ [l]]: none begins
    in the text before it. When none follows it either, it is the one that
    is replaced and nothing else changes. *)
Lemma replace_from_leftmost init l new pre post :
  contains (init ++ [l]) (pre ++ init) = false →
  contains (init ++ [l]) post = false →
  replace_from 0 (init ++ [l]) new (pre ++ (init ++ [l]) ++ post)
  = pre ++ new ++ post.
Proof.
  intros Hpre Hpost. induction pre as [|c pre IH].
  - cbn [app]. destruct (init ++ [l]) as [|o old] eqn:Hold; [by destruct init|].
    pose proof (starts_with_app (o :: old) post) as Hstart.
    cbn [app] in Hstart |- *. cbn [replace_from]. rewrite Hstart.
    replace (length (o :: old) - 1)%nat with (length old) by (simpl; lia).
    rewrite replace_from_skip by done. by rewrite replace_from_absent.
  - cbn [app] in Hpre. rewrite contains_cons in Hpre.
    apply orb_false_iff in Hpre as [Hhere Hlater].
    specialize (IH Hlater). cbn [app]. cbn [replace_from].
    assert (Hstart : starts_with (init ++ [l])
                       (c :: pre ++ (init ++ [l]) ++ post) = false).
    { rewrite <- Hhere.
      replace (c :: pre ++ (init ++ [l]) ++ post)
        with ((c :: pre ++ init) ++ [l] ++ post)
        by (by rewrite <- !app_assoc, <- app_comm_cons, <- !app_assoc).
      apply starts_with_app_long. rewrite !length_app. simpl.
      rewrite !length_app. simpl. lia. }
    rewrite Hstart. by rewrite IH.
Qed.

Lemma replace_one_occurrence init l new pre post :
  contains (init ++ [l]) (pre ++ init) = false →
  contains (init ++ [l]) post = false →
  replace (init ++ [l]) new (pre ++ (init ++ [l]) ++ post) = pre ++ new ++ post.
Proof.
  intros Hpre Hpost. unfold replace.
  destruct (init ++ [l]) as [|o old] eqn:Hold; [by destruct init|].
  rewrite <- Hold in *. by apply replace_from_leftmost.
Qed.

Lemma replace_absent old new s :
  old ≠ [] → contains old s = false → replace old new s = s.
Proof.
  intros Hold Hs. destruct old; [done|]. by apply replace_from_absent.
Qed.

Lemma filter_first {A} (P : A → Prop) `{∀ x, Decision (P x)} before first after :
  Forall (λ x, ¬ P x) before → P first →
  filter P (before ++ first :: after) = first :: filter P after.
Proof.
  intros Hbefore Hfirst. induction Hbefore as [|x before Hx _ IH]; simpl.
  - by rewrite filter_cons_True.
  - by rewrite filter_cons_False.
Qed.

Lemma filter_none {A} (P : A → Prop) `{∀ x, Decision (P x)} l :
  Forall (λ x, ¬ P x) l → filter P l = [].
Proof.
  induction 1 as [|x l Hx _ IH]; [done|]. by rewrite filter_cons_False.
Qed.

Lemma any_has_first key before first after value :
  first !! key = Some value →
  any_has key (before ++ first :: after) = true.
Proof.
  intros Hfirst. unfold any_has. rewrite existsb_app. simpl.
  rewrite (bool_decide_eq_true_2 (is_Some (first !! key))) by (by eexists).
  by rewrite orb_true_r.
Qed.

Lemma any_has_split key mapping :
  any_has key mapping = true →
  ∃ before first after value,
    mapping = before ++ first :: after
    ∧ Forall (λ d, ¬ is_Some (d !! key)) before
    ∧ first !! key = Some value.
Proof.
  unfold any_has. induction mapping as [|d mapping IH]; [done|].
  simpl. destruct (d !! key) as [value|] eqn:Hd.
  - intros _. by exists [], d, mapping, value.
  - rewrite bool_decide_eq_false_2 by (by intros [? ?]).
    intros (before & first & after & value & -> & Hbefore & Hfirst)%IH.
    exists (d :: before), first, after, value.
    split; [done|]. split; [|done]. constructor; [|done].
    rewrite Hd. by intros [? ?].
Qed.

Lemma map_fixVersion_first before first after template issue :
  Forall (λ d, ¬ is_Some (d !! lit "fixVersion")) before →
  first !! lit "fixVersion" = Some template →
  map_fixVersion (before ++ first :: after) issue
  = Ok (match gi_milestone issue with
        | Some ((_ :: _) as milestone) =>
            set_milestone (Some (replace (lit "XXX") milestone template)) issue
        | _ => issue
        end).
Proof.
  intros Hbefore Hfirst. unfold map_fixVersion.
  rewrite (filter_first _ before first after) by (done || by eexists).
  unfold subscript. rewrite Hfirst. by destruct (gi_milestone issue) as [[|]|].
Qed.

Lemma map_fixVersion_substituted before first after pre post issue milestone :
  Forall (λ d, ¬ is_Some (d !! lit "fixVersion")) before →
  first !! lit "fixVersion" = Some (pre ++ lit "XXX" ++ post) →
  contains (lit "XXX") (pre ++ lit "XX") = false →
  contains (lit "XXX") post = false →
  gi_milestone issue = Some milestone → milestone ≠ [] →
  map_fixVersion (before ++ first :: after) issue
  = Ok (set_milestone (Some (pre ++ milestone ++ post)) issue).
Proof.
  intros Hbefore Hfirst Hpre Hpost Hmilestone Hne.
  rewrite (map_fixVersion_first _ _ _ _ _ Hbefore Hfirst), Hmilestone.
  destruct milestone as [|c milestone]; [done|].
  change (lit "XXX") with (lit "XX" ++ [88]) in *.
  by rewrite (replace_one_occurrence (lit "XX") 88 (c :: milestone) pre post).
Qed.

(** X7: [map_fixVersion] uses the first dictionary of the mapping that has a
    [fixVersion] entry. For an issue with a milestone, a template in which
    no [XXX] begins before the placeholder and none follows it (any
    template with a single [XXX], such as [FIX-XXX]) gets the milestone in
    the placeholder's place, and a template without [XXX] replaces the
    milestone as it is. *)
Theorem map_fixVersion_placeholder before first after template issue milestone :
  Forall (λ d, ¬ is_Some (d !! lit "fixVersion")) before →
  first !! lit "fixVersion" = Some template →
  gi_milestone issue = Some milestone → milestone ≠ [] →
  (∀ pre post, template = pre ++ lit "XXX" ++ post →
               contains (lit "XXX") (pre ++ lit "XX") = false →
               contains (lit "XXX") post = false →
     map_fixVersion (before ++ first :: after) issue
     = Ok (set_milestone (Some (pre ++ milestone ++ post)) issue))
  ∧ (contains (lit "XXX") template = false →
     map_fixVersion (before ++ first :: after) issue
     = Ok (set_milestone (Some template) issue)).
Proof.
  intros Hbefore Hfirst Hmilestone Hne. split.
  - intros pre post -> Hpre Hpost. by apply map_fixVersion_substituted.
  - intros Habsent.
    rewrite (map_fixVersion_first _ _ _ _ _ Hbefore Hfirst), Hmilestone.
    destruct milestone as [|c milestone]; [done|]. by rewrite replace_absent.
Qed.

Lemma map_fixVersion_placeholder_witness :
  map_fixVersion [ {[ lit "fixVersion" := lit "FIX-XXX" ]} ] sample_github_issue
  = Ok (set_milestone (Some (lit "FIX-1.4")) sample_github_issue).
Proof.
  assert (Hfirst : ({[ lit "fixVersion" := lit "FIX-XXX" ]}
                      : gmap pystr pystr) !! lit "fixVersion"
                   = Some (lit "FIX-XXX"))
    by (by vm_compute).
  apply (proj1 (map_fixVersion_placeholder []
                  {[ lit "fixVersion" := lit "FIX-XXX" ]} []
                  (lit "FIX-XXX") sample_github_issue (lit "1.4")
                  (List.Forall_nil _) Hfirst eq_refl ltac:(discriminate))
           (lit "FIX-") []).
  - reflexivity.
  - reflexivity.
  - reflexivity.
Defined.

(** X8: called with a mapping in which no dictionary has a [fixVersion]
    entry, [map_fixVersion] raises [IndexError]; otherwise it never fails,
    leaves an issue without a milestone (absent or empty) as it is, and can
    change nothing but the milestone. *)
Theorem map_fixVersion_edges mapping issue :
  (Forall (λ d, ¬ is_Some (d !! lit "fixVersion")) mapping →
   map_fixVersion mapping issue = Raise IndexError)
  ∧ (any_has (lit "fixVersion") mapping = true →
     (gi_milestone issue = None ∨ gi_milestone issue = Some []) →
     map_fixVersion mapping issue = Ok issue)
  ∧ (any_has (lit "fixVersion") mapping = true →
     ∃ issue', map_fixVersion mapping issue = Ok issue'
               ∧ set_milestone (gi_milestone issue) issue' = issue).
Proof.
  split; [|split].
  - intros Hnone. unfold map_fixVersion. by rewrite filter_none.
  - intros (before & first & after & template & -> & Hbefore & Hfirst)%any_has_split Hm.
    rewrite (map_fixVersion_first _ _ _ _ _ Hbefore Hfirst).
    by destruct Hm as [-> | ->].
  - intros (before & first & after & template & -> & Hbefore & Hfirst)%any_has_split.
    rewrite (map_fixVersion_first _ _ _ _ _ Hbefore Hfirst).
    eexists. split; [reflexivity|].
    destruct issue as [? ? ? ? ? milestone ? ? ? ? ?].
    by destruct milestone as [[|]|].
Qed.

(** ** Construction from GitHub payloads *)

(** X9: the comments built by [from_github] are the payload's comments, one
    for one and in order, with author, name, id and date as they were, no
    change marker, and a body that is a prefix of the original, at most 65000
    characters long and equal to the original when that was short enough. *)
Theorem github_comments_normalised (raw : list GithubComment) :
  Forall2 (λ c r, author c = gc_author r ∧ name c = gc_name r
                  ∧ comment_id c = gc_id r ∧ date_created c = gc_date_created r
                  ∧ changed c = None
                  ∧ body c `prefix_of` gc_body r
                  ∧ (len (body c) ≤ 65000)%Z
                  ∧ ((len (gc_body r) ≤ 65000)%Z → body c = gc_body r))
          (github_comments raw) raw.
Proof.
  induction raw as [|r raw IH]; [constructor|].
  constructor; [|exact IH]. simpl. repeat split.
  - apply trimCommentBody_prefix.
  - apply trimCommentBody_len.
  - intros Hlen. unfold trimCommentBody. by rewrite bool_decide_eq_false_2 by lia.
Qed.

Lemma Issue_init_routed source title url upstream comments config tags
    fixVersion priority content reporter assignee status id upstream_id entry :
  routing_entry config source upstream = Ok entry →
  ∃ i, Issue.__init__ source title url upstream comments config tags fixVersion
         priority content reporter assignee status id upstream_id None = Ok i
       ∧ Issue.downstream i = match content with
                              | Some _ => Bound entry
                              | None => Missing
                              end
       ∧ Issue.content i = match content with
                           | Some c => Bound (scrub_content c)
                           | None => Missing
                           end
       ∧ Issue.status i = match content with
                          | Some _ => Bound status
                          | None => Missing
                          end
       ∧ Issue.fixVersion i = fixVersion
       ∧ Issue.comments i = comments.
Proof.
  intros Hentry. unfold Issue.__init__. rewrite Hentry.
  destruct content; eexists; by repeat split.
Qed.

Lemma map_fixVersion_total mapping issue :
  any_has (lit "fixVersion") mapping = true →
  ∃ issue', map_fixVersion mapping issue = Ok issue'
            ∧ gi_body issue' = gi_body issue
            ∧ gi_state issue' = gi_state issue.
Proof.
  intros (before & first & after & template & -> & Hbefore & Hfirst)%any_has_split.
  rewrite (map_fixVersion_first _ _ _ _ _ Hbefore Hfirst).
  eexists. split; [reflexivity|]. by destruct (gi_milestone issue) as [[|]|].
Qed.

Lemma reformat_state_fields issue :
  gi_body (reformat_state issue) = gi_body issue
  ∧ gi_milestone (reformat_state issue) = gi_milestone issue
  ∧ gi_state (reformat_state issue)
    = match gi_state issue with
      | Some state =>
          Some (if bool_decide (state = lit "open") then lit "Open"
                else if bool_decide (state = lit "closed") then lit "Closed"
                else state)
      | None => None
      end.
Proof.
  unfold reformat_state. destruct (gi_state issue) as [[|c state]|] eqn:Hstate;
    [by rewrite Hstate| |by rewrite Hstate].
  repeat case_bool_decide; simpl; by rewrite ?Hstate.
Qed.

Lemma PR_init_routed source jira_key title url upstream config comments
    priority content reporter assignee status id suffix match_ entry :
  routing_entry config source upstream = Ok entry →
  PR.__init__ source jira_key title url upstream config comments priority
    content reporter assignee status id suffix match_ None
  = Ok (PR.mk source jira_key title url upstream comments priority
          (match content with
           | Some ((_ :: _) as c) => Some (scrub_content c)
           | _ => None
           end)
          reporter assignee status (str_int id) suffix match_ entry).
Proof. unfold PR.__init__. by intros ->. Qed.

Section FromGithubFacts.

Variables ua ud : char → bool.
Variable mapping_of : Downstream → option (list (gmap pystr pystr)).

(** X10: [Issue.from_github] succeeds exactly when the project is routed.
    Without a routing entry it raises the lookup's [KeyError], also for an
    issue without a body, and leaves the payload with its state rewritten.
    With one it returns an Issue whose downstream is bound to the entry
    when the body is not [None], and unbound when it is. *)
Theorem Issue_from_github_routed upstream issue config :
  let run := Issue_from_github mapping_of upstream issue config in
  (∀ e, routing_entry config (lit "github") upstream = Raise e →
        run.1 = Raise e ∧ run.2 = reformat_state issue)
  ∧ (∀ entry, routing_entry config (lit "github") upstream = Ok entry →
       ∃ i, run.1 = Ok i
            ∧ Issue.downstream i
              = (match gi_body issue with
                 | Some _ => Bound entry
                 | None => Missing
                 end)
            ∧ Issue.content i
              = (match gi_body issue with
                 | Some b => Bound (scrub_content b)
                 | None => Missing
                 end)
            ∧ Issue.comments i = github_comments (gi_comments issue)).
Proof.
  unfold Issue_from_github. cbv zeta. split.
  - by intros e ->.
  - intros entry Hentry. rewrite Hentry.
    destruct (reformat_state_fields issue) as (Hbody1 & _ & _).
    set (issue1 := reformat_state issue) in *.
    destruct (any_has (lit "fixVersion") (default [] (mapping_of entry))) eqn:Hany.
    + destruct (map_fixVersion_total _ issue1 Hany) as (issue2 & -> & Hbody2 & _).
      cbn [fst]. rewrite Hbody2, Hbody1.
      edestruct Issue_init_routed as (i & -> & Hd & Hc & _ & _ & Hcomments);
        [exact Hentry|].
      exists i. by destruct (gi_body issue).
    + cbn [fst]. rewrite Hbody1.
      edestruct Issue_init_routed as (i & -> & Hd & Hc & _ & _ & Hcomments);
        [exact Hentry|].
      exists i. by destruct (gi_body issue).
Qed.

(** X11: for a routed issue with a body, the status of the Issue is the
    upstream state with [open] turned into [Open] and [closed] into [Closed]
    (any other state, and [None], as they are), and the caller's payload
    holds the rewritten state too. *)
Theorem Issue_from_github_status upstream issue config entry body :
  routing_entry config (lit "github") upstream = Ok entry →
  gi_body issue = Some body →
  let run := Issue_from_github mapping_of upstream issue config in
  ∃ i, run.1 = Ok i
       ∧ Issue.status i
         = Bound (match gi_state issue with
                  | Some state =>
                      PyStr (if bool_decide (state = lit "open") then lit "Open"
                             else if bool_decide (state = lit "closed") then lit "Closed"
                             else state)
                  | None => PyNone
                  end)
       ∧ gi_state run.2
         = (match gi_state issue with
            | Some state =>
                Some (if bool_decide (state = lit "open") then lit "Open"
                      else if bool_decide (state = lit "closed") then lit "Closed"
                      else state)
            | None => None
            end).
Proof.
  intros Hentry Hbody. unfold Issue_from_github. cbv zeta. rewrite Hentry.
  destruct (reformat_state_fields issue) as (Hbody1 & _ & Hstate1).
  set (issue1 := reformat_state issue) in *.
  destruct (any_has (lit "fixVersion") (default [] (mapping_of entry))) eqn:Hany.
  - destruct (map_fixVersion_total _ issue1 Hany) as (issue2 & -> & Hbody2 & Hstate2).
    cbn [fst snd]. rewrite Hbody2, Hbody1, Hbody, Hstate2, Hstate1.
    edestruct Issue_init_routed as (i & -> & _ & _ & Hstatus & _); [exact Hentry|].
    exists i. split; [done|]. split; [|done]. rewrite Hstatus.
    by destruct (gi_state issue).
  - cbn [fst snd]. rewrite Hbody1, Hbody, Hstate1.
    edestruct Issue_init_routed as (i & -> & _ & _ & Hstatus & _); [exact Hentry|].
    exists i. split; [done|]. split; [|done]. rewrite Hstatus.
    by destruct (gi_state issue).
Qed.

Lemma map_fixVersion_no_milestone mapping issue issue' :
  map_fixVersion mapping issue = Ok issue' →
  gi_milestone issue = None ∨ gi_milestone issue = Some [] →
  issue' = issue.
Proof.
  unfold map_fixVersion. intros Hrun Hmilestone.
  destruct (filter _ _) as [|first rest]; [done|].
  destruct (subscript first _); [|done].
  destruct Hmilestone as [Hm | Hm]; rewrite Hm in Hrun; congruence.
Qed.

(** What [Issue.from_github] returns for a routed project: an Issue whose
    fix version is the list of the one milestone that the payload ends up
    with, which is the work of [map_fixVersion] when the mapping asks for
    it. *)
Lemma Issue_from_github_mapped upstream issue config entry :
  routing_entry config (lit "github") upstream = Ok entry →
  ∃ i issue',
    Issue_from_github mapping_of upstream issue config = (Ok i, issue')
    ∧ Issue.fixVersion i
      = PyList [match gi_milestone issue' with
                | Some milestone => PyStr milestone
                | None => PyNone
                end]
    ∧ (if any_has (lit "fixVersion") (default [] (mapping_of entry))
       then map_fixVersion (default [] (mapping_of entry)) (reformat_state issue)
            = Ok issue'
       else issue' = reformat_state issue).
Proof.
  intros Hentry. unfold Issue_from_github. cbv zeta. rewrite Hentry.
  destruct (any_has (lit "fixVersion") (default [] (mapping_of entry))) eqn:Hany.
  - destruct (map_fixVersion_total _ (reformat_state issue) Hany)
      as (issue2 & Hmapped & _ & _).
    rewrite Hmapped.
    edestruct Issue_init_routed as (i & Hinit & _ & _ & _ & Hfix & _);
      [exact Hentry|].
    eexists i, issue2. rewrite Hinit. split; [reflexivity|]. by split.
  - edestruct Issue_init_routed as (i & Hinit & _ & _ & _ & Hfix & _);
      [exact Hentry|].
    eexists i, _. rewrite Hinit. split; [reflexivity|]. by split.
Qed.

(** X12: the fix version of an Issue from [from_github] is the one-element
    list holding the milestone that the caller's payload ends up with (a
    list holding [None] when there is none). That milestone is the payload's
    own when the routing entry maps no fix version or the milestone is
    [None] or empty; otherwise it is the first [fixVersion] template with
    the milestone put for [XXX] as [str.replace] does, which for a template
    with a single [XXX] is the template with the milestone in that place. *)
Theorem Issue_from_github_fixVersion upstream issue config entry :
  routing_entry config (lit "github") upstream = Ok entry →
  let run := Issue_from_github mapping_of upstream issue config in
  let mapping := default [] (mapping_of entry) in
  ∃ i, run.1 = Ok i
       ∧ Issue.fixVersion i
         = PyList [match gi_milestone run.2 with
                   | Some milestone => PyStr milestone
                   | None => PyNone
                   end]
       ∧ (any_has (lit "fixVersion") mapping = false →
          gi_milestone run.2 = gi_milestone issue)
       ∧ (gi_milestone issue = None ∨ gi_milestone issue = Some [] →
          gi_milestone run.2 = gi_milestone issue)
       ∧ (∀ before first after template milestone,
            mapping = before ++ first :: after →
            Forall (λ d, ¬ is_Some (d !! lit "fixVersion")) before →
            first !! lit "fixVersion" = Some template →
            gi_milestone issue = Some milestone → milestone ≠ [] →
            gi_milestone run.2 = Some (replace (lit "XXX") milestone template)
            ∧ ∀ pre post,
                template = pre ++ lit "XXX" ++ post →
                contains (lit "XXX") (pre ++ lit "XX") = false →
                contains (lit "XXX") post = false →
                gi_milestone run.2 = Some (pre ++ milestone ++ post)).
Proof.
  intros Hentry. cbv zeta.
  destruct (Issue_from_github_mapped upstream issue config entry Hentry)
    as (i & issue' & Hrun & Hfix & Hmapped).
  rewrite Hrun. cbn [fst snd]. exists i. split; [done|]. split; [exact Hfix|].
  destruct (reformat_state_fields issue) as (_ & Hmilestone1 & _).
  split; [|split].
  - intros Hany. rewrite Hany in Hmapped. by rewrite Hmapped.
  - intros Hnone.
    destruct (any_has (lit "fixVersion") (default [] (mapping_of entry)));
      [|by rewrite Hmapped].
    rewrite (map_fixVersion_no_milestone _ _ _ Hmapped); [done|].
    by rewrite Hmilestone1.
  - intros before first after template milestone Hmapping Hbefore Hfirst
      Hmilestone Hne.
    rewrite Hmapping in Hmapped.
    rewrite (any_has_first _ _ _ _ _ Hfirst) in Hmapped.
    rewrite (map_fixVersion_first _ _ _ _ _ Hbefore Hfirst) in Hmapped.
    rewrite Hmilestone1, Hmilestone in Hmapped.
    destruct milestone as [|c milestone]; [done|].
    apply Ok_inj in Hmapped as <-. cbn [set_milestone gi_milestone].
    split; [done|]. intros pre post -> Hpre Hpost.
    change (lit "XXX") with (lit "XX" ++ [88]) in *.
    by rewrite (replace_one_occurrence (lit "XX") 88 (c :: milestone) pre post).
Qed.

(** X13: [PR.from_github] succeeds exactly when the project is routed, and
    then the PR's [jira_key] and [match] are both the list the matcher
    finds in the raw body and the trimmed comments, a list without
    duplicates; its status is [None] and its downstream the routing
    entry. *)
Theorem PR_from_github_routed upstream pr suffix config :
  let run := PR_from_github ua ud upstream pr suffix config in
  (∀ e, routing_entry config (lit "github") upstream = Raise e → run = Raise e)
  ∧ (∀ entry, routing_entry config (lit "github") upstream = Ok entry →
       ∃ p keys,
         run = Ok p
         ∧ matcher ua ud (gp_body pr) (github_comments (gp_comments pr)) = Some keys
         ∧ PR.jira_key p = keys ∧ PR.match_ p = keys ∧ NoDup keys
         ∧ PR.downstream p = entry
         ∧ PR.comments p = github_comments (gp_comments pr)
         ∧ PR.title p = lit "[" ++ upstream ++ lit "] " ++ gp_title pr
         ∧ PR.status p = PyNone ∧ PR.suffix p = suffix
         ∧ PR.id p = str_int (gp_number pr)).
Proof.
  unfold PR_from_github. cbv zeta.
  destruct (matcher_total ua ud (gp_body pr) (github_comments (gp_comments pr)))
    as [keys Hkeys].
  rewrite Hkeys. split.
  - intros e He. by apply PR_init_unrouted.
  - intros entry Hentry.
    rewrite (PR_init_routed _ _ _ _ _ _ _ _ _ _ _ _ _ _ _ _ Hentry).
    eexists _, keys. split; [reflexivity|]. repeat split.
    unfold matcher in Hkeys. case_bool_decide; [|done].
    apply (inj Some) in Hkeys as <-. apply NoDup_filter, NoDup_elements.
Qed.

End FromGithubFacts.

Lemma Issue_from_github_status_witness :
  ∃ i, (Issue_from_github sample_mapping_of (lit "org/repo")
          sample_github_issue sample_config).1 = Ok i
       ∧ Issue.status i = Bound (PyStr (lit "Open")).
Proof.
  destruct (Issue_from_github_status sample_mapping_of
              (lit "org/repo") sample_github_issue sample_config
              sample_downstream (lit "It crashes.") eq_refl eq_refl)
    as (i & Hrun & Hstatus & _).
  exists i. split; [exact Hrun|exact Hstatus].
Defined.

Lemma Issue_from_github_fixVersion_witness :
  ∃ i, (Issue_from_github sample_mapping_of (lit "org/repo")
          sample_github_issue sample_config).1 = Ok i
       ∧ Issue.fixVersion i = PyList [PyStr (lit "Release 1.4 (stable)")].
Proof.
  destruct (Issue_from_github_fixVersion sample_mapping_of (lit "org/repo")
              sample_github_issue sample_config sample_downstream eq_refl)
    as (i & Hrun & Hfix & _ & _ & Htemplate).
  exists i. split; [exact Hrun|]. rewrite Hfix.
  destruct (Htemplate [] {[ lit "fixVersion" := lit "Release XXX (stable)" ]} []
              (lit "Release XXX (stable)") (lit "1.4")) as [_ Hplace].
  - reflexivity.
  - constructor.
  - by vm_compute.
  - reflexivity.
  - discriminate.
  - rewrite (Hplace (lit "Release ") (lit " (stable)")); reflexivity.
Defined.

(** ** What a reconciliation does to the tracker *)

Section Preserves.

Variable R : Tracker → Tracker → Prop.
Hypothesis R_refl : ∀ j, R j j.
Hypothesis R_trans : ∀ j1 j2 j3, R j1 j2 → R j2 j3 → R j1 j3.

Lemma preserves_ret {A} (a : A) : preserves R (ret a).
Proof. intros j. apply R_refl. Qed.

Lemma preserves_raise {A} e : preserves R (raise (A := A) e).
Proof. intros j. apply R_refl. Qed.

Lemma preserves_lift {A} (r : result A) : preserves R (lift r).
Proof. destruct r; [apply preserves_ret|apply preserves_raise]. Qed.

Lemma preserves_emit e : preserves R (emit e).
Proof. intros j. apply R_refl. Qed.

Lemma preserves_bind {A B} (m : M A) (f : A → M B) :
  preserves R m → (∀ a, preserves R (f a)) → preserves R (bind m f).
Proof.
  intros Hm Hf j. specialize (Hm j). unfold bind, final in *.
  destruct (m j) as [[[a|e] j1] evs1]; [|exact Hm].
  specialize (Hf a j1). unfold final in Hf.
  destruct (f a j1) as [[r j2] evs2]. simpl in *. by eapply R_trans.
Qed.

Lemma preserves_when (b : bool) (m : M unit) :
  preserves R m → preserves R (when_ b m).
Proof. destruct b; [done|]. intros _. apply preserves_ret. Qed.

Lemma preserves_try {A} (m handler : M A) :
  preserves R m → preserves R handler →
  preserves R (try_except_JIRAError m handler).
Proof.
  intros Hm Hh j. specialize (Hm j). unfold try_except_JIRAError, final in *.
  destruct (m j) as [[[a|e] j1] evs1]; [exact Hm|].
  destruct e; try exact Hm.
  specialize (Hh j1). unfold final in Hh.
  destruct (handler j1) as [[r j2] evs2]. simpl in *. by eapply R_trans.
Qed.

Lemma preserves_update_transition existing pr transition_type :
  writes_preserve R existing →
  preserves R (update_transition existing pr transition_type).
Proof.
  intros (R_attach & R_comment & R_status). unfold update_transition.
  apply preserves_bind; [apply preserves_lift|].
  intros downstream. destruct (filter _ _); [apply preserves_ret|].
  apply preserves_bind; [apply preserves_lift|]. intros status.
  apply preserves_bind; [apply R_status|]. intros _. apply preserves_emit.
Qed.

Lemma preserves_update_jira_issue existing pr config :
  writes_preserve R existing →
  preserves R (update_jira_issue existing pr config).
Proof.
  intros Hwrites. pose proof Hwrites as (R_attach & R_comment & R_status).
  unfold update_jira_issue.
  apply preserves_bind; [apply preserves_lift|]. intros downstream.
  apply preserves_bind; [apply preserves_lift|]. intros suffix.
  apply preserves_bind; [apply preserves_lift|]. intros new_comment.
  apply preserves_bind; [intros j; apply R_refl|]. intros exists_.
  apply preserves_bind; [intros j; apply R_refl|]. intros comment_exist.
  apply preserves_bind; [apply preserves_when, R_attach|]. intros _.
  apply preserves_bind.
  { apply preserves_when. apply preserves_bind; [apply preserves_lift|].
    intros keys. apply preserves_bind; [apply preserves_emit|]. intros _.
    apply R_comment. }
  intros _. apply preserves_bind.
  { apply preserves_when. apply preserves_bind; [apply preserves_emit|].
    intros _. by apply preserves_update_transition. }
  intros _. apply preserves_when. apply preserves_bind; [apply preserves_emit|].
  intros _. by apply preserves_update_transition.
Qed.

Lemma preserves_search query : preserves R (client.search_issues query).
Proof.
  intros j. unfold client.search_issues, final.
  destruct (search_answer j query); apply R_refl.
Qed.

Lemma preserves_loop pr config keys :
  (∀ existing, writes_preserve R existing) →
  preserves R (sync_with_jira_loop pr config keys).
Proof.
  intros Hwrites. induction keys as [|jira_key keys IH]; [apply preserves_ret|].
  cbn [sync_with_jira_loop]. cbv zeta.
  apply preserves_bind.
  { apply preserves_try.
    - apply preserves_bind; [apply preserves_search|]. intros response.
      case_bool_decide; [|apply preserves_ret].
      apply preserves_bind; [apply preserves_emit|]. intros _. apply preserves_ret.
    - apply preserves_bind; [apply preserves_emit|]. intros _. apply preserves_ret. }
  intros [response|]; [|exact IH].
  apply preserves_bind; [apply preserves_lift|]. intros existing.
  apply preserves_bind; [apply preserves_emit|]. intros _.
  apply preserves_bind; [by apply preserves_update_jira_issue|]. intros _.
  apply preserves_bind; [apply preserves_emit|]. intros _. exact IH.
Qed.

Lemma preserves_sync ua ud pr config :
  (∀ existing, writes_preserve R existing) →
  preserves R (sync_with_jira ua ud pr config).
Proof.
  intros Hwrites. unfold sync_with_jira.
  apply preserves_bind; [apply preserves_emit|]. intros _.
  destruct (testing config); [apply preserves_emit|].
  apply preserves_bind; [apply preserves_lift|]. intros match_.
  case_bool_decide; [apply preserves_emit|].
  apply preserves_bind; [apply preserves_emit|]. intros _.
  apply preserves_bind.
  { destruct (isinstance_Issue pr); [|apply preserves_ret].
    apply preserves_bind; [apply preserves_lift|]. intros content.
    destruct (matcher _ _ _ _); [apply preserves_ret|apply preserves_raise]. }
  intros pr'. apply preserves_bind; [apply preserves_lift|]. intros keys.
  by apply preserves_loop.
Qed.

End Preserves.

Lemma grows_refl j : grows j j.
Proof. by repeat split. Qed.

Lemma grows_trans j1 j2 j3 : grows j1 j2 → grows j2 j3 → grows j1 j3.
Proof.
  intros (Hs1 & Hw1 & Ht1) (Hs2 & Hw2 & Ht2).
  split; [congruence|]. split; [congruence|].
  intros t. destruct (Ht1 t), (Ht2 t). split; by etrans.
Qed.

Lemma grows_put existing t j :
  ticket_links (ticket_of j existing) `prefix_of` ticket_links t →
  ticket_comments (ticket_of j existing) `prefix_of` ticket_comments t →
  grows j (put_ticket existing t j).
Proof.
  intros Hl Hc. split; [done|]. split; [done|]. intros t'.
  rewrite ticket_of_put. by case_decide; subst.
Qed.

Lemma grows_attach existing link : preserves grows (d_issue.attach_link existing link).
Proof. intros j. apply grows_put; simpl; [by apply prefix_app_r|done]. Qed.

Lemma grows_comment existing body : preserves grows (client.add_comment existing body).
Proof. intros j. apply grows_put; simpl; [done|by apply prefix_app_r]. Qed.

Lemma grows_status existing target pr :
  preserves grows (d_issue.change_status existing target pr).
Proof.
  intros j. unfold d_issue.change_status, final.
  destruct (workflow j _ target); simpl; [by apply grows_put|apply grows_refl].
Qed.

(** X14: whatever the item and the configuration, and whether the run ends
    normally or in an error, [sync_with_jira] leaves a tracker that answers
    searches and allows transitions as before, and in which every ticket
    still has the links and comments it had, in their order, before any new
    ones: nothing is removed, reordered or rewritten. *)
Theorem sync_with_jira_only_appends ua ud (pr : item) (config : Config) (j : Tracker) :
  grows j (final (sync_with_jira ua ud pr config j)).
Proof.
  apply preserves_sync; [apply grows_refl|apply grows_trans|].
  intros existing. split; [|split].
  - apply grows_attach.
  - apply grows_comment.
  - apply grows_status.
Qed.

Lemma touches_only_put existing t j : touches_only existing j (put_ticket existing t j).
Proof. intros t' Hne. rewrite ticket_of_put. by case_decide. Qed.

(** X15: [update_jira_issue] writes to the ticket it was given and to no
    other: every other ticket is as it was, for a PR or an Issue, and also
    when the call raises; on the given ticket it only appends. *)
Theorem update_jira_issue_frame (existing : N) (pr : item) (config : Config)
    (j : Tracker) :
  let j' := final (update_jira_issue existing pr config j) in
  touches_only existing j j' ∧ grows j j'.
Proof.
  split.
  - apply (preserves_update_jira_issue (touches_only existing)).
    + by intros ? ? ?.
    + intros j1 j2 j3 H12 H23 t Hne. rewrite H23, H12; done.
    + split; [|split].
      * intros link j0. apply touches_only_put.
      * intros body j0. apply touches_only_put.
      * intros target pr0 j0. unfold d_issue.change_status, final.
        destruct (workflow j0 _ target); simpl;
          [apply touches_only_put|by intros ? ?].
  - apply preserves_update_jira_issue; [apply grows_refl|apply grows_trans|].
    split; [|split].
    + apply grows_attach.
    + apply grows_comment.
    + apply grows_status.
Qed.

Lemma existsb_prefix {A} (f : A → bool) l l' :
  l `prefix_of` l' → existsb f l = true → existsb f l' = true.
Proof. intros [k ->] Hl. rewrite existsb_app, Hl. done. Qed.

Lemma link_present_grows j j' t url :
  grows j j' → link_present j t url = true → link_present j' t url = true.
Proof. intros (_ & _ & Ht). apply existsb_prefix, Ht. Qed.

Lemma comment_present_grows j j' t body :
  grows j j' → comment_present j t body = true → comment_present j' t body = true.
Proof. intros (_ & _ & Ht). apply existsb_prefix, Ht. Qed.

Lemma grows_update existing pr config j :
  grows j (final (update_jira_issue existing pr config j)).
Proof.
  apply preserves_update_jira_issue; [apply grows_refl|apply grows_trans|].
  split; [|split]; [apply grows_attach|apply grows_comment|apply grows_status].
Qed.

Lemma grows_loop pr config keys j :
  grows j (final (sync_with_jira_loop pr config keys j)).
Proof.
  apply preserves_loop; [apply grows_refl|apply grows_trans|].
  intros existing.
  split; [|split]; [apply grows_attach|apply grows_comment|apply grows_status].
Qed.

Lemma events_mk {A} (r : result A) j evs : events (r, j, evs) = evs.
Proof. reflexivity. Qed.

Lemma final_mk {A} (r : result A) j evs : final (r, j, evs) = j.
Proof. reflexivity. Qed.

Lemma outcome_mk {A} (r : result A) j evs : outcome (r, j, evs) = r.
Proof. reflexivity. Qed.

Section Idempotence.

Variables (p : PR.t) (config : Config) (comment : pystr).
Hypothesis Hcomment : format_comment (IsPR p) (PR.suffix p) config = Ok comment.

Lemma settled_grows j j' t : grows j j' → settled p comment j t → settled p comment j' t.
Proof.
  intros Hg [Hl Hc]. split;
    [by eapply link_present_grows|by eapply comment_present_grows].
Qed.

Lemma update_settles existing j :
  settled p comment (final (update_jira_issue existing (IsPR p) config j)) existing.
Proof.
  destruct (update_jira_issue_PR existing p config j comment Hcomment)
    as (r & j' & evs & -> & _ & _ & _ & Hl & Hc & _). unfold final, settled. simpl.
  unfold link_present, comment_present in *. rewrite Hl, Hc. split.
  - destruct (existsb _ (ticket_links (ticket_of j existing))) eqn:Hold.
    + by rewrite app_nil_r.
    + apply existsb_app_hit. by apply bool_decide_eq_true_2.
  - destruct (existsb _ (ticket_comments (ticket_of j existing))) eqn:Hold.
    + by rewrite app_nil_r.
    + apply existsb_app_hit. by apply bool_decide_eq_true_2.
Qed.

Lemma update_search existing j :
  search_answer (final (update_jira_issue existing (IsPR p) config j))
  = search_answer j.
Proof. by destruct (grows_update existing (IsPR p) config j) as [-> _]. Qed.

(** After a loop that ended normally, every key with exactly one ticket has
    that ticket settled. *)
Lemma loop_settles keys j k t :
  outcome (sync_with_jira_loop (IsPR p) config keys j) = Ok tt →
  k ∈ keys → search_answer j (key_query k) = Some [t] →
  settled p comment (final (sync_with_jira_loop (IsPR p) config keys j)) t.
Proof.
  revert j. induction keys as [|jira_key keys IH]; intros j Hok Hk Hanswer.
  { by apply elem_of_nil in Hk. }
  revert Hok.
  destruct (search_answer j (key_query jira_key))
    as [[|existing [|second response]]|] eqn:Hhead.
  - rewrite (loop_abandon_count _ _ _ _ _ _ Hhead) by done. cbv zeta.
    rewrite final_mk, outcome_mk. intros Hok.
    apply elem_of_cons in Hk as [->|Hk]; [congruence|]. by apply IH.
  - rewrite (loop_unique _ _ _ _ _ _ Hhead). cbv zeta.
    destruct (outcome (update_jira_issue existing (IsPR p) config j))
      as [[]|e]; [|by rewrite outcome_mk].
    rewrite final_mk, outcome_mk. intros Hok.
    apply elem_of_cons in Hk as [->|Hk].
    + assert (t = existing) as -> by congruence.
      eapply settled_grows; [apply grows_loop|apply update_settles].
    + apply IH; [done|done|]. by rewrite update_search.
  - rewrite (loop_abandon_count _ _ _ _ _ _ Hhead) by done. cbv zeta.
    rewrite final_mk, outcome_mk. intros Hok.
    apply elem_of_cons in Hk as [->|Hk]; [congruence|]. by apply IH.
  - rewrite (loop_abandon_error _ _ _ _ _ Hhead). cbv zeta.
    rewrite final_mk, outcome_mk. intros Hok.
    apply elem_of_cons in Hk as [->|Hk]; [congruence|]. by apply IH.
Qed.

Lemma update_quiet existing j :
  settled p comment j existing →
  let run := update_jira_issue existing (IsPR p) config j in
  List.filter is_attach_link (events run) = []
  ∧ List.filter is_add_comment (events run) = []
  ∧ (link_transition_started ∉ events run)
  ∧ ticket_links (ticket_of (final run) existing) = ticket_links (ticket_of j existing)
  ∧ ticket_comments (ticket_of (final run) existing)
    = ticket_comments (ticket_of j existing).
Proof.
  intros [Hlink Hbody].
  destruct (update_jira_issue_PR existing p config j comment Hcomment)
    as (r & j' & evs & -> & _ & _ & _ & Hl & Hc & Hattach & Hadd & _ & Honly & _).
  cbv zeta. unfold final, events. simpl.
  rewrite Hlink in *. rewrite Hbody in *. rewrite app_nil_r in Hl, Hc.
  repeat split; try done.
  intros Hin. apply Honly in Hin. by rewrite andb_false_r in Hin.
Qed.

(** A loop over keys whose tickets are settled attaches nothing, adds
    nothing and enters no link-transition block, however it ends. *)
Lemma loop_quiet keys j :
  (∀ k t, k ∈ keys → search_answer j (key_query k) = Some [t] → settled p comment j t) →
  let run := sync_with_jira_loop (IsPR p) config keys j in
  List.filter is_attach_link (events run) = []
  ∧ List.filter is_add_comment (events run) = []
  ∧ link_transition_started ∉ events run.
Proof.
  revert j. induction keys as [|jira_key keys IH]; intros j Hsettled.
  { cbv zeta. unfold events. simpl. repeat split. apply not_elem_of_nil. }
  assert (Htail : ∀ k t, k ∈ keys → search_answer j (key_query k) = Some [t] →
                         settled p comment j t).
  { intros k t Hk. apply (Hsettled k t). by right. }
  assert (Habandon : ∀ warning,
            let rest := sync_with_jira_loop (IsPR p) config keys j in
            let run := (outcome rest, final rest,
                        SearchIssues (key_query jira_key) :: warning :: events rest) in
            (∃ message args, warning = Log Warning message args) →
            List.filter is_attach_link (events run) = []
            ∧ List.filter is_add_comment (events run) = []
            ∧ link_transition_started ∉ events run).
  { intros warning rest run (message & args & ->).
    destruct (IH j Htail) as (Ha & Hc & Hs). unfold run. rewrite events_mk.
    cbn [List.filter is_attach_link is_add_comment is_search_issues].
    split; [exact Ha|]. split; [exact Hc|].
    intros [?|[?|?]%elem_of_cons]%elem_of_cons; done. }
  destruct (search_answer j (key_query jira_key))
    as [[|existing [|second response]]|] eqn:Hhead.
  - rewrite (loop_abandon_count _ _ _ _ _ _ Hhead) by done.
    apply Habandon. by eexists _, _.
  - rewrite (loop_unique _ _ _ _ _ _ Hhead). cbv zeta.
    assert (Hexisting : settled p comment j existing)
      by (by apply (Hsettled jira_key existing); [left|]).
    destruct (update_quiet existing j Hexisting) as (Ha & Hc & Hs & _).
    destruct (IH (final (update_jira_issue existing (IsPR p) config j)))
      as (Ha' & Hc' & Hs').
    { intros k t Hk Hanswer. rewrite update_search in Hanswer.
      eapply settled_grows; [apply grows_update|]. by apply (Htail k). }
    destruct (outcome (update_jira_issue existing (IsPR p) config j)) as [[]|e];
      rewrite events_mk; cbn [List.filter is_attach_link is_add_comment].
    + rewrite !List.filter_app. cbn [List.filter is_attach_link is_add_comment].
      rewrite Ha, Ha', Hc, Hc'. repeat split.
      intros [?|[?|Hin]%elem_of_cons]%elem_of_cons; [done|done|].
      apply elem_of_app in Hin as [?|[?|?]%elem_of_cons]; done.
    + rewrite Ha, Hc. repeat split.
      intros [?|[?|Hin]%elem_of_cons]%elem_of_cons; done.
  - rewrite (loop_abandon_count _ _ _ _ _ _ Hhead) by done.
    apply Habandon. by eexists _, _.
  - rewrite (loop_abandon_error _ _ _ _ _ Hhead).
    apply Habandon. by eexists _, _.
Qed.

End Idempotence.

Lemma sync_PR_unfold ua ud p config j :
  sync_with_jira ua ud (IsPR p) config j
  = let considering :=
      Log Info "[PR] Considering upstream %s, %s"
        [AStr (PR.url p); AStr (PR.title p)] in
    if testing config then
      (Ok tt, j,
       [considering; Log Info "Testing flag is true.  Skipping actual update." []])
    else if bool_decide (PR.match_ p = []) then
      (Ok tt, j,
       [considering;
        Log Info "[PR] No match found for {pr.title}" [AStr (PR.title p)]])
    else
      let run := sync_with_jira_loop (IsPR p) config (PR.jira_key p) j in
      (outcome run, final run, considering :: GetJiraClient :: events run).
Proof.
  unfold sync_with_jira, bind, log, emit, d_issue.get_jira_client. cbv zeta.
  simpl. destruct (testing config); [done|]. simpl.
  case_bool_decide; [done|]. simpl.
  by destruct (sync_with_jira_loop (IsPR p) config (PR.jira_key p) j) as [[r j'] evs].
Qed.

(** X16: reconciling a PR twice in a row. When the first run ended
    normally, the second one, started from the tracker the first one left,
    attaches no link, adds no comment and never enters the link-transition
    block, whether it ends normally or in the tracker's refusal of a
    status: every ticket the first run reached already carries the PR's
    link and comment. *)
Theorem sync_with_jira_idempotent ua ud (p : PR.t) (config : Config) (j : Tracker) :
  let first := sync_with_jira ua ud (IsPR p) config j in
  let second := sync_with_jira ua ud (IsPR p) config (final first) in
  outcome first = Ok tt →
  (outcome second = Ok tt ∨ outcome second = Raise TransitionError)
  ∧ List.filter is_attach_link (events second) = []
  ∧ List.filter is_add_comment (events second) = []
  ∧ link_transition_started ∉ events second.
Proof.
  destruct (format_comment_PR p (PR.suffix p) config) as [comment Hcomment].
  cbv zeta. rewrite !sync_PR_unfold. cbv zeta.
  destruct (testing config).
  { unfold outcome, events. simpl. intros _. split; [by left|].
    repeat split. by not_in_list. }
  case_bool_decide.
  { unfold outcome, events. simpl. intros _. split; [by left|].
    repeat split. by not_in_list. }
  set (first := sync_with_jira_loop (IsPR p) config (PR.jira_key p) j).
  rewrite final_mk, !outcome_mk, !events_mk. intros Hok1.
  destruct (loop_PR_total p config (PR.jira_key p) j) as (_ & Hsearch & _).
  destruct (loop_PR_total p config (PR.jira_key p) (final first)) as (Hr2 & _).
  destruct (loop_quiet p config comment Hcomment (PR.jira_key p) (final first))
    as (Ha & Hc & Hs).
  { intros k t Hk Hanswer. apply (loop_settles p config comment Hcomment _ _ k);
      [exact Hok1|done|]. fold first in Hsearch. by rewrite <- Hsearch. }
  split; [exact Hr2|].
  cbn [List.filter is_attach_link is_add_comment].
  split; [exact Ha|]. split; [exact Hc|].
  intros [?|[?|?]%elem_of_cons]%elem_of_cons; done.
Qed.

(** ** The loop and the entry point, continued *)

(** X17: when no candidate key has exactly one ticket (its query fails or
    returns none or several), the loop ends normally on the very tracker it
    started from, after one query per key in order, and everything else it
    did was logging warnings. This holds for a PR and for an Issue alike. *)
Theorem sync_with_jira_loop_no_match (pr : item) (config : Config)
    (keys : list pystr) (j : Tracker) :
  (∀ k, k ∈ keys →
        search_answer j (key_query k) = None
        ∨ ∃ response, search_answer j (key_query k) = Some response
                      ∧ length response ≠ 1%nat) →
  let run := sync_with_jira_loop pr config keys j in
  outcome run = Ok tt
  ∧ final run = j
  ∧ Forall (λ e, is_search_issues e = true ∨ ∃ message args, e = Log Warning message args)
           (events run)
  ∧ List.filter is_search_issues (events run)
    = List.map (λ k, SearchIssues (key_query k)) keys.
Proof.
  induction keys as [|jira_key keys IH]; intros Hnone.
  { cbv zeta. unfold outcome, final, events. simpl. by repeat split. }
  destruct IH as (Hok & Hfinal & Hevents & Hqueries).
  { intros k Hk. apply Hnone. by right. }
  destruct (Hnone jira_key) as [Herror|(response & Hanswer & Hcount)]; [left|..].
  - rewrite (loop_abandon_error _ _ _ _ _ Herror). cbv zeta.
    rewrite outcome_mk, final_mk, events_mk.
    split; [done|]. split; [done|]. split.
    + constructor; [by left|]. constructor; [right; by eexists _, _|done].
    + simpl. by rewrite Hqueries.
  - rewrite (loop_abandon_count _ _ _ _ _ _ Hanswer Hcount). cbv zeta.
    rewrite outcome_mk, final_mk, events_mk.
    split; [done|]. split; [done|]. split.
    + constructor; [by left|]. constructor; [right; by eexists _, _|done].
    + simpl. by rewrite Hqueries.
Qed.

Lemma Issue_init_unbound source title url upstream comments config tags
    fixVersion priority content reporter assignee status id upstream_id
    downstream i :
  Issue.__init__ source title url upstream comments config tags fixVersion
    priority content reporter assignee status id upstream_id downstream = Ok i →
  Issue.match_ i = Missing ∧ Issue.suffix i = Missing ∧ Issue.jira_key i = Missing.
Proof.
  unfold Issue.__init__. intros H.
  destruct content; [|by simplify_eq].
  destruct downstream as [d|]; [destruct (truthy_downstream d)|];
    repeat match type of H with
           | context [routing_entry ?c ?s ?u] => destruct (routing_entry c s u)
           end;
    by simplify_eq.
Qed.

(** X18: an Issue that came out of the constructor has no [match] and no
    [suffix] attribute. So [sync_with_jira] on it, with the testing flag
    off, raises [AttributeError] before any call to the tracker, and
    [update_jira_issue] on it raises [AttributeError] without a call too. *)
Theorem sync_with_jira_constructed_Issue source title url upstream comments
    config tags fixVersion priority content reporter assignee status id
    upstream_id downstream i :
  Issue.__init__ source title url upstream comments config tags fixVersion
    priority content reporter assignee status id upstream_id downstream = Ok i →
  (∀ ua ud config' j,
     let run := sync_with_jira ua ud (IsIssue i) config' j in
     final run = j
     ∧ Forall (λ e, is_api_call e = false) (events run)
     ∧ outcome run = if testing config' then Ok tt
                     else Raise (AttributeError "match"))
  ∧ (∀ existing config' j,
       ∃ attribute,
         update_jira_issue existing (IsIssue i) config' j
         = (Raise (AttributeError attribute), j, [])).
Proof.
  intros (Hmatch & Hsuffix & _)%Issue_init_unbound. split.
  - intros ua ud config' j. unfold sync_with_jira, bind, log, emit.
    cbn [get_match]. rewrite Hmatch. cbv zeta. simpl.
    destruct (testing config'); simpl; by repeat constructor.
  - intros existing config' j. unfold update_jira_issue, bind.
    cbn [get_downstream get_suffix]. rewrite Hsuffix.
    destruct (Issue.downstream i); simpl; by eexists.
Qed.

(** X19: for a PR with a non-empty [match], with the testing flag off, the
    first call of the run obtains the tracker client, and the run sends the
    queries of the elements of [jira_key] (not of [match]) in order: all of
    them when it ends normally, as it does on a tracker that refuses no
    status, and those up to the failing update when it ends in the
    tracker's refusal of a status, the one exception such a run can end
    in. *)
Theorem sync_with_jira_PR_queries ua ud (p : PR.t) (config : Config) (j : Tracker) :
  testing config = false → PR.match_ p ≠ [] →
  let run := sync_with_jira ua ud (IsPR p) config j in
  (outcome run = Ok tt ∨ outcome run = Raise TransitionError)
  ∧ (∃ calls, List.filter is_api_call (events run) = GetJiraClient :: calls)
  ∧ List.filter is_search_issues (events run)
    `prefix_of` List.map (λ k, SearchIssues (key_query k)) (PR.jira_key p)
  ∧ (outcome run = Ok tt →
     List.filter is_search_issues (events run)
     = List.map (λ k, SearchIssues (key_query k)) (PR.jira_key p))
  ∧ ((∀ from to, workflow j from to = true) → outcome run = Ok tt).
Proof.
  intros Htesting Hmatch. cbv zeta. rewrite sync_PR_unfold, Htesting.
  rewrite bool_decide_eq_false_2 by done. cbv zeta.
  destruct (loop_PR_total p config (PR.jira_key p) j)
    as (Hr & _ & Hprefix & Hall & Hyes).
  rewrite outcome_mk, events_mk. split; [exact Hr|]. split; [by eexists|].
  split; [exact Hprefix|]. split; [exact Hall|exact Hyes].
Qed.

(** ** Transitions *)

Lemma update_transition_configured existing p transition_type j before first
    after status :
  pr_updates (PR.downstream p) = Some (before ++ first :: after) →
  Forall (λ d, ¬ is_Some (d !! transition_type)) before →
  first !! transition_type = Some status →
  update_transition existing (IsPR p) transition_type j
  = let old := ticket_of j existing in
    if workflow j (ticket_status old) status
    then (Ok tt,
          put_ticket existing
            {| ticket_links := ticket_links old;
               ticket_comments := ticket_comments old;
               ticket_status := status |} j,
          [ChangeStatus existing status;
           Log Info "Updated {transition_type} for issue {pr.title}"
             [AStr transition_type; AStr (PR.title p)]])
    else (Raise TransitionError, j, [ChangeStatus existing status]).
Proof.
  intros Hupdates Hbefore Hfirst. unfold update_transition.
  change (get_downstream (IsPR p)) with (Ok (PR.downstream p)).
  rewrite lift_Ok, bind_ret, Hupdates.
  change (default [] (Some (before ++ first :: after)))
    with (before ++ first :: after).
  rewrite filter_first by (done || by eexists).
  unfold subscript. rewrite Hfirst, lift_Ok, bind_ret.
  unfold bind, d_issue.change_status, log, emit. cbv zeta.
  by destruct (workflow j _ status).
Qed.

Lemma update_transition_calls existing p transition_type j :
  let calls := List.filter is_api_call
                 (events (update_transition existing (IsPR p) transition_type j)) in
  calls = [] ∨ ∃ status, calls = [ChangeStatus existing status].
Proof.
  cbv zeta. unfold update_transition.
  change (get_downstream (IsPR p)) with (Ok (PR.downstream p)).
  rewrite lift_Ok, bind_ret.
  destruct (filter _ _) as [|first rest] eqn:Hfilter; [by left|].
  assert (Hin : first ∈ first :: rest) by apply list_elem_of_here.
  rewrite <- Hfilter in Hin.
  apply list_elem_of_filter in Hin as [[status Hstatus] _].
  unfold subscript. rewrite Hstatus, lift_Ok, bind_ret.
  unfold bind, d_issue.change_status, log, emit. right. exists status.
  by destruct (workflow j _ status).
Qed.


Lemma guarded_transition_run (b : bool) message existing p transition_type j :
  let u := update_transition existing (IsPR p) transition_type j in
  when_ b (log Info message [] ;;
           update_transition existing (IsPR p) transition_type) j
  = (if b then outcome u else Ok tt, if b then final u else j,
     if b then Log Info message [] :: events u else []).
Proof.
  cbv zeta. destruct b; [|reflexivity]. simpl.
  destruct (update_transition_PR existing p transition_type j)
    as (r & j' & evs & Hrun & _).
  rewrite Hrun, final_mk, events_mk, outcome_mk.
  change (Log Info message [] :: evs) with ([Log Info message []] ++ evs).
  eapply bind_Ok; [reflexivity|exact Hrun].
Qed.

(** The events of an update for a PR, block by block; the link-transition
    block is reached only when the merge-transition block did not raise. *)
Lemma update_jira_issue_PR_events existing p config j comment :
  format_comment (IsPR p) (PR.suffix p) config = Ok comment →
  ∃ j_merge j_link,
    events (update_jira_issue existing (IsPR p) config j)
    = [RemoteLinks existing; Comments existing]
      ++ (if link_present j existing (PR.url p) then []
          else [AttachLink existing (pr_link p)])
      ++ (if comment_present j existing comment then []
          else [Log Info "Added comment for PR {pr.title} on JIRA {pr.jira_key}"
                  [AStr (PR.title p); AList (PR.jira_key p)];
                AddComment existing comment])
      ++ (if any_has (lit "merge_transition")
                (default [] (pr_updates (PR.downstream p)))
              && contains (lit "merged") (PR.suffix p)
          then merge_transition_started
               :: events (update_transition existing (IsPR p)
                            (lit "merge_transition") j_merge)
          else [])
      ++ match (if any_has (lit "merge_transition")
                     (default [] (pr_updates (PR.downstream p)))
                   && contains (lit "merged") (PR.suffix p)
                then outcome (update_transition existing (IsPR p)
                                (lit "merge_transition") j_merge)
                else Ok tt) with
         | Ok _ =>
             if any_has (lit "link_transition")
                  (default [] (pr_updates (PR.downstream p)))
                && contains (lit "mentioned") comment
                && negb (link_present j existing (PR.url p))
             then link_transition_started
                  :: events (update_transition existing (IsPR p)
                               (lit "link_transition") j_link)
             else []
         | Raise _ => []
         end.
Proof.
  intros Hcomment. unfold update_jira_issue.
  change (get_downstream (IsPR p)) with (Ok (PR.downstream p)).
  change (get_suffix (IsPR p)) with (Ok (PR.suffix p)).
  rewrite !lift_Ok, !bind_ret. rewrite Hcomment, lift_Ok, bind_ret.
  assert (Hlinks : issue_link_exists existing (IsPR p) j
                   = (Ok (link_present j existing (PR.url p)), j, [RemoteLinks existing]))
    by reflexivity.
  assert (Hcomments : comment_exists existing comment j
                   = (Ok (comment_present j existing comment), j, [Comments existing]))
    by reflexivity.
  destruct (attach_step (link_present j existing (PR.url p)) existing
              (pr_link p) j) as (j1 & Hrun1 & _).
  destruct (comment_step (comment_present j existing comment) existing p
              comment j1) as (j2 & Hrun2 & _).
  pose proof (guarded_transition_run
                (any_has (lit "merge_transition")
                   (default [] (pr_updates (PR.downstream p)))
                 && contains (lit "merged") (PR.suffix p))
                "Looking for new merged_transition" existing p
                (lit "merge_transition") j2) as Hrun3.
  cbv zeta in Hrun3.
  match type of Hrun3 with _ = (_, ?j3, _) =>
    pose proof (guarded_transition_run
                  (any_has (lit "link_transition")
                     (default [] (pr_updates (PR.downstream p)))
                   && contains (lit "mentioned") comment
                   && negb (link_present j existing (PR.url p)))
                  "Looking for new link_transition" existing p
                  (lit "link_transition") j3) as Hrun4;
    exists j2, j3
  end.
  cbv zeta in Hrun4. revert Hrun3.
  match goal with
  | |- context [when_ ?b _ j2 = (?r, _, _)] => generalize r
  end.
  intros [[]|e] Hrun3.
  - erewrite bind_Ok; [|exact Hlinks|].
    2: { eapply bind_Ok; [exact Hcomments|]. eapply bind_Ok; [exact Hrun1|].
         eapply bind_Ok; [exact Hrun2|]. eapply bind_Ok; [exact Hrun3|exact Hrun4]. }
    reflexivity.
  - erewrite bind_Ok; [|exact Hlinks|].
    2: { eapply bind_Ok; [exact Hcomments|]. eapply bind_Ok; [exact Hrun1|].
         eapply bind_Ok; [exact Hrun2|]. eapply bind_Raise; exact Hrun3. }
    rewrite events_mk, app_nil_r. reflexivity.
Qed.

Lemma update_transition_events existing p transition_type j :
  Forall transition_event (events (update_transition existing (IsPR p) transition_type j)).
Proof.
  destruct (update_transition_PR existing p transition_type j)
    as (r & j' & evs & -> & _ & _ & Hevs & _). exact Hevs.
Qed.

Lemma transition_events_not_merge evs :
  Forall transition_event evs → merge_transition_started ∉ evs.
Proof.
  intros Hevs Hin. rewrite Forall_forall in Hevs.
  by specialize (Hevs _ Hin).
Qed.

(** X21: in an update for a PR, the merge-transition block is entered
    exactly when some dictionary of [pr_updates] has a [merge_transition]
    entry and the PR's suffix contains [merged]; neither the ticket's state
    nor the comment text plays a part. *)
Theorem merge_transition_guard existing (p : PR.t) (config : Config) (j : Tracker) :
  merge_transition_started ∈ events (update_jira_issue existing (IsPR p) config j)
  ↔ any_has (lit "merge_transition") (default [] (pr_updates (PR.downstream p))) = true
    ∧ contains (lit "merged") (PR.suffix p) = true.
Proof.
  destruct (format_comment_PR p (PR.suffix p) config) as [comment Hcomment].
  destruct (update_jira_issue_PR_events existing p config j comment Hcomment)
    as (j_merge & j_link & ->).
  pose proof (transition_events_not_merge _
                (update_transition_events existing p (lit "merge_transition") j_merge))
    as Hmerge.
  pose proof (transition_events_not_merge _
                (update_transition_events existing p (lit "link_transition") j_link))
    as Hlink.
  rewrite <- andb_true_iff.
  assert (H3 : merge_transition_started ∉
               (if link_present j existing (PR.url p) then []
                else [AttachLink existing (pr_link p)]))
    by (destruct (link_present _ _ _); not_in_list).
  assert (H4 : merge_transition_started ∉
               (if comment_present j existing comment then []
                else [Log Info "Added comment for PR {pr.title} on JIRA {pr.jira_key}"
                        [AStr (PR.title p); AList (PR.jira_key p)];
                      AddComment existing comment]))
    by (destruct (comment_present _ _ _); not_in_list).
  set (mg := any_has (lit "merge_transition") _ && _).
  set (lg := any_has (lit "link_transition") _ && _ && _).
  rewrite !elem_of_app. split.
  - intros [Hin|[Hin|[Hin|[Hin|Hin]]]].
    + by revert Hin; not_in_list.
    + done.
    + done.
    + destruct mg; [done|]. by apply elem_of_nil in Hin.
    + destruct (if mg then _ else _) as [[]|e]; [|by apply elem_of_nil in Hin].
      destruct lg; [|by apply elem_of_nil in Hin].
      apply elem_of_cons in Hin as [Hin|Hin]; done.
  - intros ->. right. right. right. left. left.
Qed.

(** X22: a PR whose suffix names no state (neither [closed], [reopened] nor
    [merged]) and whose routing entry configures a link transition: the
    update asks for the configured status exactly once when the ticket had
    no link to the PR yet, and asks for no status change when it had. *)
Theorem link_transition_first_mention existing (p : PR.t) (config : Config)
    (j : Tracker) before first after status :
  contains (lit "closed") (PR.suffix p) = false →
  contains (lit "reopened") (PR.suffix p) = false →
  contains (lit "merged") (PR.suffix p) = false →
  pr_updates (PR.downstream p) = Some (before ++ first :: after) →
  Forall (λ d, ¬ is_Some (d !! lit "link_transition")) before →
  first !! lit "link_transition" = Some status →
  let run := update_jira_issue existing (IsPR p) config j in
  List.filter is_change_status (events run)
  = if link_present j existing (PR.url p) then []
    else [ChangeStatus existing status].
Proof.
  intros Hclosed Hreopened Hmerged Hupdates Hbefore Hfirst.
  destruct (format_comment_PR p (PR.suffix p) config) as [comment Hcomment].
  pose proof (mention_template_contains p (PR.suffix p) config comment
                Hclosed Hreopened Hmerged Hcomment) as Hmentioned.
  destruct (update_jira_issue_PR_events existing p config j comment Hcomment)
    as (j_merge & j_link & Hevents).
  cbv zeta. rewrite Hevents, Hmerged, andb_false_r, Hmentioned, Hupdates.
  change (default [] (Some (before ++ first :: after)))
    with (before ++ first :: after).
  rewrite (any_has_first _ _ _ _ _ Hfirst).
  rewrite (update_transition_configured _ _ _ j_link _ _ _ _ Hupdates Hbefore Hfirst).
  rewrite !List.filter_app.
  cbv zeta.
  destruct (workflow j_link (ticket_status (ticket_of j_link existing)) status),
    (link_present j existing (PR.url p)),
    (comment_present j existing comment); reflexivity.
Qed.

(** X23: the calls an update for a PR makes to the tracker, in order: the
    ticket's links are read, then its comments, then the link is attached
    if it was missing, then the comment is added if it was missing, and
    last come at most two status requests, all for the given ticket. Both
    reads come before any write. *)
Theorem update_jira_issue_call_sequence existing (p : PR.t) (config : Config)
    (j : Tracker) :
  ∃ comment transitions,
    format_comment (IsPR p) (PR.suffix p) config = Ok comment
    ∧ List.filter is_api_call (events (update_jira_issue existing (IsPR p) config j))
      = [RemoteLinks existing; Comments existing]
        ++ (if link_present j existing (PR.url p) then []
            else [AttachLink existing (pr_link p)])
        ++ (if comment_present j existing comment then []
            else [AddComment existing comment])
        ++ transitions
    ∧ Forall (λ e, ∃ status, e = ChangeStatus existing status) transitions
    ∧ (length transitions ≤ 2)%nat.
Proof.
  destruct (format_comment_PR p (PR.suffix p) config) as [comment Hcomment].
  destruct (update_jira_issue_PR_events existing p config j comment Hcomment)
    as (j_merge & j_link & Hevents).
  pose proof (update_transition_calls existing p (lit "merge_transition") j_merge)
    as Hmerge.
  pose proof (update_transition_calls existing p (lit "link_transition") j_link)
    as Hlink.
  cbv zeta in Hmerge, Hlink. revert Hevents.
  set (mg := any_has (lit "merge_transition") _ && _).
  set (lg := any_has (lit "link_transition") _ && _ && _).
  set (merge_calls := List.filter is_api_call _) in Hmerge.
  set (link_calls := List.filter is_api_call _) in Hlink.
  set (merged := if mg then _ else Ok tt).
  intros Hevents. exists comment.
  exists ((if mg then merge_calls else [])
          ++ match merged with
             | Ok _ => if lg then link_calls else []
             | Raise _ => []
             end).
  split; [exact Hcomment|]. split.
  - rewrite Hevents, !List.filter_app.
    destruct (link_present j existing (PR.url p)),
      (comment_present j existing comment), mg, merged, lg; reflexivity.
  - destruct mg, merged, lg, Hmerge as [->|[s1 ->]], Hlink as [->|[s2 ->]]; simpl;
      (split; [repeat constructor; by eexists|lia]).
Qed.

(** ** Construction, continued *)

(** X24: a PR built by [from_github] from a body and comments without any
    dash has an empty [match] and [jira_key]; reconciling it ends normally
    without a single call to the tracker and leaves the tracker as it is,
    whatever the configuration. *)
Theorem PR_from_github_without_dash ua ud upstream pr suffix config p :
  (∀ b, gp_body pr = Some b → DASH ∉ b) →
  Forall (λ comment, DASH ∉ gc_body comment) (gp_comments pr) →
  PR_from_github ua ud upstream pr suffix config = Ok p →
  PR.match_ p = [] ∧ PR.jira_key p = []
  ∧ ∀ config' j,
      let run := sync_with_jira ua ud (IsPR p) config' j in
      outcome run = Ok tt ∧ final run = j
      ∧ Forall (λ e, is_api_call e = false) (events run).
Proof.
  intros Hbody Hcomments. unfold PR_from_github. cbv zeta.
  rewrite (matcher_of_no_match ua ud).
  - unfold PR.__init__. destruct (routing_entry _ _ _); [|done].
    intros [= <-]. simpl. split; [done|]. split; [done|].
    intros config' j. rewrite sync_PR_unfold. cbv zeta. simpl.
    destruct (testing config'); rewrite outcome_mk, final_mk, events_mk;
      by repeat constructor.
  - apply findall_dash_free, all_data_dash_free; [exact Hbody|].
    unfold github_comments. apply Forall_map.
    eapply Forall_impl; [exact Hcomments|]. intros comment Hdash. simpl.
    intros Hin. apply Hdash. eapply elem_of_prefix; [exact Hin|].
    apply trimCommentBody_prefix.
Qed.

(** X25: a truthy [downstream] argument is what the PR constructor stores,
    without a look at the configuration; the Issue constructor stores it
    too when the content is not [None], and with content [None] it leaves
    the attribute unset whatever is passed. A falsy argument (an empty
    dictionary) is treated by both exactly as if none had been passed, so
    the configuration decides, with the errors that brings. *)
Theorem explicit_downstream (d : Downstream) :
  (truthy_downstream d = true →
   (∀ source jira_key title url upstream config comments priority content
      reporter assignee status id suffix match_,
      ∃ p, PR.__init__ source jira_key title url upstream config comments
             priority content reporter assignee status id suffix match_ (Some d)
           = Ok p ∧ PR.downstream p = d)
   ∧ (∀ source title url upstream comments config tags fixVersion priority
        content reporter assignee status id upstream_id,
        ∃ i, Issue.__init__ source title url upstream comments config tags
               fixVersion priority content reporter assignee status id
               upstream_id (Some d) = Ok i
             ∧ Issue.downstream i = match content with
                                    | Some _ => Bound d
                                    | None => Missing
                                    end))
  ∧ (truthy_downstream d = false →
     (∀ source jira_key title url upstream config comments priority content
        reporter assignee status id suffix match_,
        PR.__init__ source jira_key title url upstream config comments
          priority content reporter assignee status id suffix match_ (Some d)
        = PR.__init__ source jira_key title url upstream config comments
            priority content reporter assignee status id suffix match_ None)
     ∧ (∀ source title url upstream comments config tags fixVersion priority
          content reporter assignee status id upstream_id,
          Issue.__init__ source title url upstream comments config tags
            fixVersion priority content reporter assignee status id
            upstream_id (Some d)
          = Issue.__init__ source title url upstream comments config tags
              fixVersion priority content reporter assignee status id
              upstream_id None)).
Proof.
  split; intros Htruthy; split; intros; unfold PR.__init__, Issue.__init__;
    rewrite ?Htruthy; try done; try (by eexists).
  destruct content; by eexists.
Qed.

(** X26: without a [downstream] argument the PR constructor fails exactly
    on an unrouted project: [KeyError] of the source when the map lacks the
    source, [KeyError] of the project when the source's map lacks the
    project, and otherwise a PR bound to the entry found, whose id is the
    decimal text of the number given. *)
Theorem PR_init_succeeds_iff_routed source jira_key title url upstream config
    comments priority content reporter assignee status id suffix match_ :
  let build := PR.__init__ source jira_key title url upstream config comments
                 priority content reporter assignee status id suffix match_ None in
  (map config !! source = None → build = Raise (KeyError source))
  ∧ (∀ by_project, map config !! source = Some by_project →
       by_project !! upstream = None → build = Raise (KeyError upstream))
  ∧ (∀ by_project entry, map config !! source = Some by_project →
       by_project !! upstream = Some entry →
       ∃ p, build = Ok p ∧ PR.downstream p = entry ∧ PR.source p = source
            ∧ PR.upstream p = upstream ∧ PR.id p = str_int id).
Proof.
  cbv zeta. unfold PR.__init__, routing_entry, subscript. repeat split.
  - by intros ->.
  - by intros by_project -> ->.
  - intros by_project entry -> ->. by eexists.
Qed.


(** ** The comment text, continued *)

(** X27: the comment tells PRs apart by their URL: for two PRs with the same
    title and reporter, under the same suffix and configuration, the
    comments are equal exactly when the URLs are. So the duplicate check of
    the update never takes the comment of another PR for this one's. *)
Theorem format_comment_separates_urls (p p' : PR.t) (pr_suffix : pystr)
    (config : Config) :
  PR.title p = PR.title p' → PR.reporter p = PR.reporter p' →
  (format_comment (IsPR p) pr_suffix config
   = format_comment (IsPR p') pr_suffix config
   ↔ PR.url p = PR.url p').
Proof.
  intros Htitle Hreporter. unfold format_comment.
  change (get_reporter (IsPR p)) with (Ok (PR.reporter p)).
  change (get_reporter (IsPR p')) with (Ok (PR.reporter p')).
  change (get_title (IsPR p)) with (PR.title p).
  change (get_title (IsPR p')) with (PR.title p').
  change (get_url (IsPR p)) with (PR.url p).
  change (get_url (IsPR p')) with (PR.url p').
  cbv zeta. rewrite <- Htitle, <- Hreporter. split.
  - intros H%Ok_inj. revert H.
    destruct (contains (lit "closed") pr_suffix),
      (contains (lit "reopened") pr_suffix),
      (contains (lit "merged") pr_suffix); intros H;
      repeat apply app_inv_head in H; by apply app_inv_tail in H.
  - by intros ->.
Qed.

(** ** Instances of the properties with hypotheses *)

Lemma sync_with_jira_loop_no_match_witness :
  outcome (sync_with_jira_loop
             (IsPR (sample_pr (lit "Fix crash") (lit "opened") [lit "ABC-2"]))
             sample_config [lit "ABC-2"; lit "ABC-3"] sample_tracker) = Ok tt
  ∧ final (sync_with_jira_loop
             (IsPR (sample_pr (lit "Fix crash") (lit "opened") [lit "ABC-2"]))
             sample_config [lit "ABC-2"; lit "ABC-3"] sample_tracker)
    = sample_tracker.
Proof.
  destruct (sync_with_jira_loop_no_match
              (IsPR (sample_pr (lit "Fix crash") (lit "opened") [lit "ABC-2"]))
              sample_config [lit "ABC-2"; lit "ABC-3"] sample_tracker)
    as (Hok & Hfinal & _).
  - intros k Hk. right. exists [].
    apply elem_of_cons in Hk as [->|Hk];
      [|apply list_elem_of_singleton in Hk as ->];
      (split; [reflexivity|simpl; lia]).
  - split; [exact Hok|exact Hfinal].
Defined.

Lemma sync_with_jira_constructed_Issue_witness :
  ∃ i, Issue.__init__ (lit "github") (lit "Crash on start")
         (lit "https://github.com/org/repo/issues/7") (lit "org/repo") []
         sample_config PyNone PyNone PyNone (Some (lit "It crashes."))
         (lit "octocat") PyNone PyNone 7 (PyInt 7) None = Ok i
       ∧ outcome (sync_with_jira ascii_only ascii_only (IsIssue i)
                    sample_config sample_tracker)
         = Raise (AttributeError "match").
Proof.
  destruct (Issue.__init__ (lit "github") (lit "Crash on start")
              (lit "https://github.com/org/repo/issues/7") (lit "org/repo") []
              sample_config PyNone PyNone PyNone (Some (lit "It crashes."))
              (lit "octocat") PyNone PyNone 7 (PyInt 7) None)
    as [i|e] eqn:Hinit; [|by vm_compute in Hinit].
  exists i. split; [reflexivity|].
  destruct (proj1 (sync_with_jira_constructed_Issue _ _ _ _ _ _ _ _ _ _ _ _ _ _
                     _ _ i Hinit)
              ascii_only ascii_only sample_config sample_tracker)
    as (_ & _ & Hraise).
  exact Hraise.
Defined.

Lemma sync_with_jira_PR_queries_witness :
  List.filter is_search_issues
    (events (sync_with_jira ascii_only ascii_only
               (IsPR (sample_pr (lit "Fix crash") (lit "opened")
                        [lit "FACTORY-1"]))
               sample_config sample_tracker))
  = [SearchIssues (lit "Key = FACTORY-1")].
Proof.
  destruct (sync_with_jira_PR_queries ascii_only ascii_only
              (sample_pr (lit "Fix crash") (lit "opened") [lit "FACTORY-1"])
              sample_config sample_tracker)
    as (_ & _ & _ & Hqueries & Hyes).
  - reflexivity.
  - discriminate.
  - apply Hqueries, Hyes. reflexivity.
Defined.

(** The second of two runs for a PR with an abandoned and a resolved key
    attaches nothing. *)
Lemma sync_with_jira_idempotent_witness :
  List.filter is_attach_link
    (events (sync_with_jira ascii_only ascii_only
               (IsPR (sample_pr (lit "Fix crash") (lit "opened")
                        [lit "ABC-2"; lit "FACTORY-1"]))
               sample_config
               (final (sync_with_jira ascii_only ascii_only
                         (IsPR (sample_pr (lit "Fix crash") (lit "opened")
                                  [lit "ABC-2"; lit "FACTORY-1"]))
                         sample_config sample_tracker))))
  = []
  ∧ List.filter is_attach_link
      (events (sync_with_jira ascii_only ascii_only
                 (IsPR (sample_pr (lit "Fix crash") (lit "opened")
                          [lit "ABC-2"; lit "FACTORY-1"]))
                 sample_config sample_tracker))
    = [AttachLink 1 {| link_url := lit "https://github.com/org/repo/pull/5";
                       link_title := lit "[PR] [org/repo] Fix crash" |}].
Proof.
  split; [|by vm_compute].
  destruct (sync_with_jira_idempotent ascii_only ascii_only
              (sample_pr (lit "Fix crash") (lit "opened")
                 [lit "ABC-2"; lit "FACTORY-1"])
              sample_config sample_tracker)
    as (_ & Hattach & _).
  - by vm_compute.
  - exact Hattach.
Defined.

Lemma link_transition_first_mention_witness :
  List.filter is_change_status
    (events (update_jira_issue 1
               (IsPR (sample_pr (lit "Fix crash") (lit "opened")
                        [lit "FACTORY-1"]))
               sample_config sample_tracker))
  = [ChangeStatus 1 (lit "In Review")].
Proof.
  apply (link_transition_first_mention 1
           (sample_pr (lit "Fix crash") (lit "opened") [lit "FACTORY-1"])
           sample_config sample_tracker
           [ {[ lit "merge_transition" := lit "Done" ]} ]
           {[ lit "link_transition" := lit "In Review" ]} []
           (lit "In Review")).
  - reflexivity.
  - reflexivity.
  - reflexivity.
  - reflexivity.
  - constructor; [|constructor]. intros [status Hstatus].
    vm_compute in Hstatus. discriminate.
  - by vm_compute.
Defined.

Lemma PR_from_github_without_dash_witness :
  ∃ p, PR_from_github ascii_only ascii_only (lit "org/repo")
         (sample_github_pr (Some (lit "no ticket here"))) (lit "opened")
         sample_config = Ok p
       ∧ PR.match_ p = [].
Proof.
  destruct (PR_from_github ascii_only ascii_only (lit "org/repo")
              (sample_github_pr (Some (lit "no ticket here"))) (lit "opened")
              sample_config) as [p|e] eqn:Hbuild; [|by vm_compute in Hbuild].
  exists p. split; [reflexivity|].
  apply (PR_from_github_without_dash ascii_only ascii_only (lit "org/repo")
           (sample_github_pr (Some (lit "no ticket here"))) (lit "opened")
           sample_config p); [| |exact Hbuild].
  - intros b Hb. injection Hb as <-. vm_compute. by not_in_list.
  - constructor; [|constructor]. vm_compute. by not_in_list.
Defined.

Lemma format_comment_separates_urls_witness :
  format_comment
    (IsPR (sample_pr (lit "Fix crash") (lit "opened") [lit "FACTORY-1"]))
    (lit "opened") sample_config
  = format_comment
      (IsPR (sample_pr (lit "Fix crash") (lit "merged") [lit "FACTORY-2"]))
      (lit "opened") sample_config
  ↔ PR.url (sample_pr (lit "Fix crash") (lit "opened") [lit "FACTORY-1"])
    = PR.url (sample_pr (lit "Fix crash") (lit "merged") [lit "FACTORY-2"]).
Proof.
  apply format_comment_separates_urls; reflexivity.
Defined.
